(** * Entities and components over a host scene graph

    A shallow embedding of the two [Entity] classes of the repository
    (the older "bframe" class of [src/core/Entity.ts] and the "nucleus"
    class), and of [NucleusHelper.getContextFor].

    JavaScript objects live in explicit heaps (lists indexed by
    allocation order); references are indices.  Methods are functions in
    a state-and-exception monad; recursion through the entity graph is
    bounded by fuel.  The overridable methods of [Entity] are modelled
    by their bodies in the class (which are empty) and recorded in a
    trace of calls.  Code the classes call but the repository does not
    contain (the methods of components, the [ref] callback, the
    conversions of [BABYLON.Tools], the internal component collection
    and the scene entity of nucleus, and what the engine does to other
    nodes when one is disposed) is a parameter of the model, the class
    [External]: such a call may change the state in any way, throw or
    not return.  The host engine is modelled as far as the classes
    touch it: nodes carry a disposed flag, a parent link, their three
    vectors and their observers; a scene carries the list of its
    before-render observers. *)

From Stdlib Require Import ZArith Lia.
From stdpp Require Import base option list gmap strings.

Local Open Scope Z_scope.
Local Open Scope nat_scope.

(** ** Identifiers *)

(** References are positions in the heap they point into. *)
Abbreviation EntityId := nat (only parsing).
Abbreviation CompId := nat (only parsing).
Abbreviation NodeId := nat (only parsing).
Abbreviation ObsId := nat (only parsing).
Abbreviation SceneId := nat (only parsing).
Abbreviation EngineId := nat (only parsing).
Abbreviation Loc := nat (only parsing).

(** ** JavaScript outcomes *)

Inductive Error : Type :=
  | TypeError
  | JsError (msg : string).

(** A call returns, throws (keeping the effects it had so far), or, in
    the model only, runs out of fuel. *)
Inductive Res (St A : Type) : Type :=
  | Ok (a : A) (s : St)
  | Throw (err : Error) (s : St)
  | Diverge.
Arguments Ok {St A} a s.
Arguments Throw {St A} err s.
Arguments Diverge {St A}.

Definition M (St A : Type) : Type := St -> Res St A.

Definition ret {St A} (a : A) : M St A := fun s => Ok a s.

Definition bind {St A B} (m : M St A) (k : A -> M St B) : M St B :=
  fun s =>
    match m s with
    | Ok a s' => k a s'
    | Throw err s' => Throw err s'
    | Diverge => Diverge
    end.

Definition throw {St A} (err : Error) : M St A := fun s => Throw err s.
Definition diverge {St A} : M St A := fun _ => Diverge.
Definition gets {St A} (f : St -> A) : M St A := fun s => Ok (f s) s.
Definition modify {St} (f : St -> St) : M St unit := fun s => Ok tt (f s).

(** Reading through a reference that may be [undefined]. *)
Definition defined {St A} (o : option A) : M St A :=
  match o with
  | Some a => ret a
  | None => throw TypeError
  end.

Definition when {St} (b : bool) (m : M St unit) : M St unit :=
  if b then m else ret tt.

(** [try { m } catch (e) { handler }] *)
Definition try_catch {St A} (m : M St A) (handler : Error -> M St A) : M St A :=
  fun s =>
    match m s with
    | Throw err s' => handler err s'
    | r => r
    end.

Declare Scope js_scope.
Delimit Scope js_scope with js.
Notation "x <- m ;; k" := (bind m (fun x => k))
  (at level 20, m at level 99, k at level 200, only parsing) : js_scope.
Notation "m ;; k" := (bind m (fun _ => k))
  (at level 100, k at level 200, right associativity, only parsing) : js_scope.
Local Open Scope js_scope.

(** ** Arrays *)

Module Js.

(** [Array.prototype.indexOf]: the first index, or -1. *)
Fixpoint indexOf_from (x : nat) (l : list nat) (i : Z) : Z :=
  match l with
  | [] => (-1)%Z
  | y :: r => if decide (y = x) then i else indexOf_from x r (i + 1)%Z
  end.
Definition indexOf (x : nat) (l : list nat) : Z := indexOf_from x l 0%Z.

(** [Array.prototype.splice(start, 1)]: a negative [start] counts from
    the end, so [splice(-1, 1)] removes the last element. *)
Definition splice1 {A} (start : Z) (l : list A) : list A :=
  let len := Z.of_nat (length l) in
  let from := if (start <? 0)%Z then Z.max (len + start) 0 else Z.min start len in
  delete (Z.to_nat from) l.

(** [Array.prototype.forEach]: the length is read once; an index that
    is no longer present when its turn comes is skipped.  The array is
    re-read from the state at every step, because the callback may
    change it. *)
Fixpoint forEach_from {St A} (arr : St -> list A) (cb : A -> M St unit)
         (todo k : nat) : M St unit :=
  match todo with
  | 0 => ret tt
  | S todo' =>
      fun s =>
        match arr s !! k with
        | Some x => (cb x ;; forEach_from arr cb todo' (S k)) s
        | None => forEach_from arr cb todo' (S k) s
        end
  end.

Definition forEach {St A} (arr : St -> list A) (cb : A -> M St unit) : M St unit :=
  fun s => forEach_from arr cb (length (arr s)) 0 s.

(** [forEach] over an array nobody else holds (a literal, the result of
    [filter], an argument the callee does not reach). *)
Fixpoint forEach_list {St A} (l : list A) (cb : A -> M St unit) : M St unit :=
  match l with
  | [] => ret tt
  | x :: r => cb x ;; forEach_list r cb
  end.

End Js.

(** ** Plain objects: the props store *)

Inductive Val : Type :=
  | VUndef
  | VNum (z : Z)
  | VStr (str : string)
  | VBool (b : bool)
  | VRef (l : Loc).

Definition Obj := gmap string Val.
Definition Store := list Obj.

(** The JavaScript truth value of [v] (the values are the ones [Val]
    has: there is no [NaN] and no [null]). *)
Definition truthy (v : Val) : bool :=
  match v with
  | VUndef => false
  | VNum z => negb (z =? 0)%Z
  | VStr str => negb (String.eqb str "")
  | VBool b => b
  | VRef _ => true
  end.

(** [v || 0] *)
Definition or_zero (v : Val) : Val := if truthy v then v else VNum 0.

(** A host [Vector3]. *)
Record Vec3 : Type := mkVec3 { vx : Val; vy : Val; vz : Val }.

Module Props.

Definition get (st : Store) (l : Loc) (k : string) : option Val :=
  match st !! l with
  | Some o => o !! k
  | None => None
  end.

(** [v.k] for a value [v] that is not [undefined]: a missing property,
    and any property of a primitive, reads as [undefined]. *)
Definition read (st : Store) (v : Val) (k : string) : Val :=
  match v with
  | VRef l => default VUndef (get st l k)
  | _ => VUndef
  end.

(** [obj[k] = v] *)
Definition set (l : Loc) (k : string) (v : Val) (st : Store) : Store :=
  match st !! l with
  | Some o => <[l := <[k := v]> o]> st
  | None => st
  end.

(** [Object.assign(target, source)]: the own properties of [source]
    are written into [target], which is changed in place; a source
    that is [undefined] contributes nothing. *)
Definition assign (target : Loc) (source : option Loc) (st : Store) : Store :=
  match st !! target, source ≫= (fun l => st !! l) with
  | Some t, Some src => <[target := src ∪ t]> st
  | _, _ => st
  end.

(** lodash [cloneDeep]: every object reachable from the value is
    copied to a fresh location; [memo] maps the originals already
    copied to their copies, which keeps sharing and cycles. *)
Definition Memo := list (Loc * Loc).

Fixpoint memo_find (l : Loc) (memo : Memo) : option Loc :=
  match memo with
  | [] => None
  | (l0, l') :: r => if decide (l0 = l) then Some l' else memo_find l r
  end.

Definition Cloner := Val -> Memo * Store -> option (Val * (Memo * Store)).

Fixpoint clone_fields (rec : Cloner) (kvs acc : list (string * Val)) (ms : Memo * Store)
  : option (list (string * Val) * (Memo * Store)) :=
  match kvs with
  | [] => Some (acc, ms)
  | (k, v) :: r =>
      match rec v ms with
      | Some (v', ms') => clone_fields rec r ((k, v') :: acc) ms'
      | None => None
      end
  end.

Fixpoint clone_val (fuel : nat) : Cloner :=
  fun v ms =>
    match v with
    | VRef l =>
        match memo_find l ms.1 with
        | Some l' => Some (VRef l', ms)
        | None =>
            match fuel, ms.2 !! l with
            | S fuel', Some o =>
                let l' := length ms.2 in
                match clone_fields (clone_val fuel') (map_to_list o) []
                        ((l, l') :: ms.1, ms.2 ++ [∅]) with
                | Some (kvs', (memo', st')) =>
                    Some (VRef l', (memo', <[l' := list_to_map kvs']> st'))
                | None => None
                end
            | _, _ => None
            end
        end
    | _ => Some (v, ms)
    end.

Definition cloneDeep (v : Val) (st : Store) : option (Val * Store) :=
  match clone_val (S (length st)) v ([], st) with
  | Some (v', (_, st')) => Some (v', st')
  | None => None
  end.

End Props.

(** ** Heaps *)

(** [IEntityContext]: the bundle handed from the mounting point down the
    tree.  The interface file is not part of the sources; the fields are
    the ones the classes read. *)
Record Context : Type := mkContext {
  ctx_engine : EngineId;
  ctx_scene : SceneId;
  ctx_sceneEntity : nat
}.

(** The object bframe's [_mountComponent] stores in [component.context]. *)
Record ComponentContext : Type := mkComponentContext {
  cc_engine : EngineId;
  cc_scene : SceneId;
  cc_node : option NodeId;
  cc_entity : EntityId
}.

(** One record for the fields of both classes.  [obs] is bframe's
    [_onBeforeRenderObservable] and nucleus' [_onBeforeRenderObserver];
    [childContext] is nucleus' [_parentContext]; [disposeObs]
    ([_onDisposeObserver]) is used by nucleus only, [ref] by bframe
    only (whether a [ref] callback was given). *)
Record Entity : Type := mkEntity {
  obs : option ObsId;
  disposeObs : option ObsId;
  isMounted : bool;
  node : option NodeId;
  props : Loc;
  parent : option EntityId;
  context : option Context;
  childContext : option Loc;
  components : list CompId;
  children : list EntityId;
  key : option string;
  ref : bool
}.

(** [Component] is not among the sources.  [kind] is
    [constructor.name]; [loaded] and [isEnabled] are the flags the
    entities read; [cmp_context] is the field bframe writes. *)
Record Component : Type := mkComponent {
  kind : string;
  loaded : bool;
  isEnabled : bool;
  cmp_context : option ComponentContext
}.

(** A host mesh: [isDisposed()], [parent], the [__entity__] back link,
    the registrations on [onDisposeObservable] and the vectors
    [position], [rotation] and [scaling]. *)
Record Node : Type := mkNode {
  disposed : bool;
  nparent : option NodeId;
  nscene : SceneId;
  nentity : option EntityId;
  ndisposeObs : list (ObsId * EntityId);
  position_of : Vec3;
  rotation_of : Vec3;
  scaling_of : Vec3
}.

(** A registration on some scene's [onBeforeRenderObservable]; the
    callback is [_onBeforeRender] bound to [obs_target]. *)
Record Observer : Type := mkObserver {
  obs_id : ObsId;
  obs_scene : SceneId;
  obs_target : EntityId
}.

Inductive EntityHook : Type :=
  | HOnMount | HDidMount | HRef | HWillUnmount | HGetChildContext
  | HParentUpdated (isParentMounted : bool)
  | HChildrenUpdated
  | HTick | HWillUpdate (newProps : option Loc) | HOnUpdated (oldProps : Loc)
  | HOnUpdate | HWillPropsUpdate (newProps : option Loc) | HOnPropsUpdated (oldProps : Loc).

Inductive ComponentHook : Type :=
  | CUnmount | CDidMount | CTick | CEntityUpdated | COnUpdate.

Inductive Event : Type :=
  | EvEntity (h : EntityHook) (e : EntityId)
  | EvComponent (h : ComponentHook) (c : CompId)
  | EvCollectionMount (e : EntityId) (engine : EngineId) (scene : SceneId) (sceneEntity : nat)
  | EvCollectionUnmount (e : EntityId)
  | EvCollectionMountComponent (e : EntityId) (c : CompId)
  | EvCollectionUnmountComponent (e : EntityId) (c : CompId)
  | EvCollectionPropsWillUpdate (e : EntityId) (oldProps : Loc)
  | EvCollectionPropsUpdated (e : EntityId)
  | EvRegisterEntity (sceneEntity : nat) (e : EntityId)
  | EvUnregisterEntity (sceneEntity : nat) (e : EntityId)
  | EvConsoleLog.

#[global] Instance Error_eq_dec : EqDecision Error.
Proof. solve_decision. Defined.
#[global] Instance EntityHook_eq_dec : EqDecision EntityHook.
Proof. solve_decision. Defined.
#[global] Instance ComponentHook_eq_dec : EqDecision ComponentHook.
Proof. solve_decision. Defined.
#[global] Instance Event_eq_dec : EqDecision Event.
Proof. solve_decision. Defined.
#[global] Instance Context_eq_dec : EqDecision Context.
Proof. solve_decision. Defined.
#[global] Instance Observer_eq_dec : EqDecision Observer.
Proof. solve_decision. Defined.

Record State : Type := mkState {
  entities : list Entity;
  comps : list Component;
  nodes : list Node;
  observers : list Observer;
  next_obs : ObsId;
  store : Store;
  trace : list Event
}.

Definition empty_state : State := mkState [] [] [] [] 0 [] [].

(** ** Field updates *)

Definition set_obs (v : option ObsId) (x : Entity) : Entity :=
  mkEntity v (disposeObs x) (isMounted x) (node x) (props x) (parent x) (context x)
           (childContext x) (components x) (children x) (key x) (ref x).
Definition set_disposeObs (v : option ObsId) (x : Entity) : Entity :=
  mkEntity (obs x) v (isMounted x) (node x) (props x) (parent x) (context x)
           (childContext x) (components x) (children x) (key x) (ref x).
Definition set_isMounted (v : bool) (x : Entity) : Entity :=
  mkEntity (obs x) (disposeObs x) v (node x) (props x) (parent x) (context x)
           (childContext x) (components x) (children x) (key x) (ref x).
Definition set_node (v : option NodeId) (x : Entity) : Entity :=
  mkEntity (obs x) (disposeObs x) (isMounted x) v (props x) (parent x) (context x)
           (childContext x) (components x) (children x) (key x) (ref x).
Definition set_props (v : Loc) (x : Entity) : Entity :=
  mkEntity (obs x) (disposeObs x) (isMounted x) (node x) v (parent x) (context x)
           (childContext x) (components x) (children x) (key x) (ref x).
Definition set_parent (v : option EntityId) (x : Entity) : Entity :=
  mkEntity (obs x) (disposeObs x) (isMounted x) (node x) (props x) v (context x)
           (childContext x) (components x) (children x) (key x) (ref x).
Definition set_context (v : option Context) (x : Entity) : Entity :=
  mkEntity (obs x) (disposeObs x) (isMounted x) (node x) (props x) (parent x) v
           (childContext x) (components x) (children x) (key x) (ref x).
Definition set_childContext (v : option Loc) (x : Entity) : Entity :=
  mkEntity (obs x) (disposeObs x) (isMounted x) (node x) (props x) (parent x) (context x)
           v (components x) (children x) (key x) (ref x).
Definition set_components (v : list CompId) (x : Entity) : Entity :=
  mkEntity (obs x) (disposeObs x) (isMounted x) (node x) (props x) (parent x) (context x)
           (childContext x) v (children x) (key x) (ref x).
Definition set_children (v : list EntityId) (x : Entity) : Entity :=
  mkEntity (obs x) (disposeObs x) (isMounted x) (node x) (props x) (parent x) (context x)
           (childContext x) (components x) v (key x) (ref x).

Definition set_cmp_context (v : option ComponentContext) (c : Component) : Component :=
  mkComponent (kind c) (loaded c) (isEnabled c) v.

Definition set_disposed (v : bool) (n : Node) : Node :=
  mkNode v (nparent n) (nscene n) (nentity n) (ndisposeObs n)
         (position_of n) (rotation_of n) (scaling_of n).
Definition set_nparent (v : option NodeId) (n : Node) : Node :=
  mkNode (disposed n) v (nscene n) (nentity n) (ndisposeObs n)
         (position_of n) (rotation_of n) (scaling_of n).
Definition set_nentity (v : option EntityId) (n : Node) : Node :=
  mkNode (disposed n) (nparent n) (nscene n) v (ndisposeObs n)
         (position_of n) (rotation_of n) (scaling_of n).
Definition set_ndisposeObs (v : list (ObsId * EntityId)) (n : Node) : Node :=
  mkNode (disposed n) (nparent n) (nscene n) (nentity n) v
         (position_of n) (rotation_of n) (scaling_of n).
Definition set_position (v : Vec3) (n : Node) : Node :=
  mkNode (disposed n) (nparent n) (nscene n) (nentity n) (ndisposeObs n)
         v (rotation_of n) (scaling_of n).
Definition set_rotation (v : Vec3) (n : Node) : Node :=
  mkNode (disposed n) (nparent n) (nscene n) (nentity n) (ndisposeObs n)
         (position_of n) v (scaling_of n).
Definition set_scaling (v : Vec3) (n : Node) : Node :=
  mkNode (disposed n) (nparent n) (nscene n) (nentity n) (ndisposeObs n)
         (position_of n) (rotation_of n) v.

Definition with_entities (v : list Entity) (s : State) : State :=
  mkState v (comps s) (nodes s) (observers s) (next_obs s) (store s) (trace s).
Definition with_comps (v : list Component) (s : State) : State :=
  mkState (entities s) v (nodes s) (observers s) (next_obs s) (store s) (trace s).
Definition with_nodes (v : list Node) (s : State) : State :=
  mkState (entities s) (comps s) v (observers s) (next_obs s) (store s) (trace s).
Definition with_observers (v : list Observer) (n : ObsId) (s : State) : State :=
  mkState (entities s) (comps s) (nodes s) v n (store s) (trace s).
Definition with_next_obs (n : ObsId) (s : State) : State :=
  mkState (entities s) (comps s) (nodes s) (observers s) n (store s) (trace s).
Definition with_store (v : Store) (s : State) : State :=
  mkState (entities s) (comps s) (nodes s) (observers s) (next_obs s) v (trace s).
Definition with_trace (v : list Event) (s : State) : State :=
  mkState (entities s) (comps s) (nodes s) (observers s) (next_obs s) (store s) v.

(** ** Primitive steps *)

Definition get_entity (e : EntityId) : M State Entity :=
  fun s => defined (entities s !! e) s.
Definition upd_entity (e : EntityId) (f : Entity -> Entity) : M State unit :=
  modify (fun s => with_entities (alter f e (entities s)) s).
Definition get_comp (c : CompId) : M State Component :=
  fun s => defined (comps s !! c) s.
Definition upd_comp (c : CompId) (f : Component -> Component) : M State unit :=
  modify (fun s => with_comps (alter f c (comps s)) s).
Definition get_node (n : NodeId) : M State Node :=
  fun s => defined (nodes s !! n) s.
Definition upd_node (n : NodeId) (f : Node -> Node) : M State unit :=
  modify (fun s => with_nodes (alter f n (nodes s)) s).

Definition log (ev : Event) : M State unit :=
  modify (fun s => with_trace (trace s ++ [ev]) s).

(** A call of an overridable method of the entity: the bodies in the
    class do nothing. *)
Definition hook (h : EntityHook) (e : EntityId) : M State unit := log (EvEntity h e).

(** What the classes call and the repository does not contain. *)
Class External : Type := mkExternal {
  (** the body of a method of a component; [Component] and its
      subclasses are not among the sources *)
  component_method : ComponentHook -> CompId -> M State unit;
  (** the [ref] callback handed to bframe's constructor *)
  ref_callback : EntityId -> M State unit;
  (** a method of nucleus' [InternalComponentCollection] or of its
      scene entity, named by the call *)
  absent_method : Event -> M State unit;
  (** what the engine does when a node is disposed, besides marking
      it: it disposes the node's descendants and notifies the
      observers of their [onDisposeObservable] *)
  engine_dispose : NodeId -> M State unit;
  (** [BABYLON.Tools.ToDegrees] and [BABYLON.Tools.ToRadians] *)
  ToDegrees : Val -> Val;
  ToRadians : Val -> Val
}.

(** [component.method()], once the component has been looked up: the
    call is recorded and the body runs. *)
Definition call_component `{Ext : External} (h : ComponentHook) (c : CompId) : M State unit :=
  log (EvComponent h c) ;; component_method h c.

(** [component.method()]: a component that is [undefined] cannot be
    called. *)
Definition chook `{Ext : External} (h : ComponentHook) (c : CompId) : M State unit :=
  get_comp c ;; call_component h c.

Definition call_absent `{Ext : External} (ev : Event) : M State unit :=
  log ev ;; absent_method ev.

Definition children_of (e : EntityId) (s : State) : list EntityId :=
  from_option children [] (entities s !! e).
Definition components_of (e : EntityId) (s : State) : list CompId :=
  from_option components [] (entities s !! e).

Definition alloc_obj (o : Obj) : M State Loc :=
  fun s => Ok (length (store s)) (with_store (store s ++ [o]) s).

(** [new SomeComponent()], for a component class of the application. *)
Definition alloc_component (c : Component) : M State CompId :=
  fun s => Ok (length (comps s)) (with_comps (comps s ++ [c]) s).

(** The state after a call, when it returned or threw. *)
Definition exec {St A} (m : M St A) (s : St) : St :=
  match m s with
  | Ok _ s' | Throw _ s' => s'
  | Diverge => s
  end.

Module Host.

(** [new BABYLON.Mesh(name, scene)]: a node at the origin, not rotated,
    of scale one. *)
Definition fresh_node (scene : SceneId) : Node :=
  mkNode false None scene None []
         (mkVec3 (VNum 0) (VNum 0) (VNum 0))
         (mkVec3 (VNum 0) (VNum 0) (VNum 0))
         (mkVec3 (VNum 1) (VNum 1) (VNum 1)).

Definition new_mesh (scene : SceneId) : M State NodeId :=
  fun s => Ok (length (nodes s)) (with_nodes (nodes s ++ [fresh_node scene]) s).

(** [node.dispose()]: the node reports [isDisposed()] from then on;
    the rest is the engine's. *)
Definition dispose `{Ext : External} (n : NodeId) : M State unit :=
  get_node n ;; upd_node n (set_disposed true) ;; engine_dispose n.

(** [scene.onBeforeRenderObservable.add(callback)] returns a new
    observer. *)
Definition observable_add (scene : SceneId) (target : EntityId) : M State ObsId :=
  fun s => Ok (next_obs s)
              (with_observers (observers s ++ [mkObserver (next_obs s) scene target])
                              (S (next_obs s)) s).

Fixpoint remove_first (scene : SceneId) (o : ObsId) (l : list Observer) : list Observer :=
  match l with
  | [] => []
  | x :: r =>
      if decide (obs_id x = o ∧ obs_scene x = scene) then r
      else x :: remove_first scene o r
  end.

(** [scene.onBeforeRenderObservable.remove(observer)]: nothing happens
    for [undefined] or for an observer that is not registered there. *)
Definition observable_remove (scene : SceneId) (o : option ObsId) : M State unit :=
  match o with
  | None => ret tt
  | Some o =>
      modify (fun s => with_observers (remove_first scene o (observers s)) (next_obs s) s)
  end.

(** [node.onDisposeObservable.add(callback)] *)
Definition dispose_observable_add (n : NodeId) (target : EntityId) : M State ObsId :=
  nd <- get_node n ;;
  o <- gets next_obs ;;
  modify (with_next_obs (S o)) ;;
  upd_node n (set_ndisposeObs (ndisposeObs nd ++ [(o, target)])) ;;
  ret o.

Fixpoint remove_pair (o : ObsId) (l : list (ObsId * EntityId)) : list (ObsId * EntityId) :=
  match l with
  | [] => []
  | x :: r => if decide (x.1 = o) then r else x :: remove_pair o r
  end.

(** [node.onDisposeObservable.remove(observer)] *)
Definition dispose_observable_remove (n : NodeId) (o : option ObsId) : M State unit :=
  nd <- get_node n ;;
  match o with
  | None => ret tt
  | Some o => upd_node n (set_ndisposeObs (remove_pair o (ndisposeObs nd)))
  end.

End Host.

(** ** The bframe entity ([src/core/Entity.ts]) *)

Module Bframe.
Section WithExternal.
Context `{Ext : External}.

(** [constructor(props?, key?, ref?)]: [this._props = props || {}]. *)
Definition construct (props : option Loc) (key : option string) (ref : bool)
  : M State EntityId :=
  p <- match props with
       | Some l => ret l
       | None => alloc_obj ∅
       end ;;
  fun s =>
    Ok (length (entities s))
       (with_entities
          (entities s ++ [mkEntity None None false None p None None None [] [] key ref]) s).

(** [onMount()]: [new BABYLON.Mesh(this.key || "Entity", this.context.scene)]. *)
Definition onMount (e : EntityId) : M State NodeId :=
  hook HOnMount e ;;
  this <- get_entity e ;;
  ctx <- defined (context this) ;;
  Host.new_mesh (ctx_scene ctx).

(** [getChildContext()] returns [undefined]. *)
Definition getChildContext (e : EntityId) : M State (option Loc) :=
  hook HGetChildContext e ;; ret None.

(** [willUpdate(newProps)] returns [true]. *)
Definition willUpdate (e : EntityId) (newProps : option Loc) : M State bool :=
  hook (HWillUpdate newProps) e ;; ret true.

(** [this.props.<k>] *)
Definition prop (this : Entity) (k : string) : M State Val :=
  gets (fun s => Props.read (store s) (VRef (props this)) k).

(** [_updateCoreProps()]: the node's vectors are set from the props
    [position], [rotation], [scaling] and [scale]. *)
Definition _updateCoreProps (e : EntityId) : M State unit :=
  this <- get_entity e ;;
  position <- prop this "position" ;;
  when (truthy position)
    (st <- gets store ;;
     n <- defined (node this) ;;
     get_node n ;;
     upd_node n (set_position
                   (mkVec3 (or_zero (Props.read st position "x"))
                           (or_zero (Props.read st position "y"))
                           (or_zero (Props.read st position "z"))))) ;;
  rotation <- prop this "rotation" ;;
  when (truthy rotation)
    (st <- gets store ;;
     n <- defined (node this) ;;
     get_node n ;;
     let radians v := if truthy v then ToRadians v else VNum 0 in
     upd_node n (set_rotation
                   (mkVec3 (radians (Props.read st rotation "x"))
                           (radians (Props.read st rotation "y"))
                           (radians (Props.read st rotation "z"))))) ;;
  scaling <- prop this "scaling" ;;
  if truthy scaling then
    st <- gets store ;;
    n <- defined (node this) ;;
    get_node n ;;
    upd_node n (set_scaling
                  (mkVec3 (or_zero (Props.read st scaling "x"))
                          (or_zero (Props.read st scaling "y"))
                          (or_zero (Props.read st scaling "z"))))
  else
    scale <- prop this "scale" ;;
    when (truthy scale)
      (n <- defined (node this) ;;
       get_node n ;;
       upd_node n (set_scaling (mkVec3 scale scale scale))).

Definition _mountComponent (e : EntityId) (c : CompId) : M State unit :=
  this <- get_entity e ;;
  ctx <- defined (context this) ;;
  get_comp c ;;
  upd_comp c (set_cmp_context
                (Some (mkComponentContext (ctx_engine ctx) (ctx_scene ctx) (node this) e))) ;;
  chook CDidMount c.

(** The part of [unmount] after the children have been visited. *)
Definition unmount_self (e : EntityId) : M State unit :=
  Js.forEach (components_of e) (chook CUnmount) ;;
  this <- get_entity e ;;
  ctx <- defined (context this) ;;
  Host.observable_remove (ctx_scene ctx) (obs this) ;;
  upd_entity e (set_obs None) ;;
  this <- get_entity e ;;
  n <- defined (node this) ;;
  Host.dispose n ;;
  upd_entity e (set_node None) ;;
  upd_entity e (set_isMounted false) ;;
  this <- get_entity e ;;
  p <- defined (parent this) ;;
  get_entity p ;;
  hook HChildrenUpdated p.

Fixpoint unmount (fuel : nat) (e : EntityId) : M State unit :=
  match fuel with
  | 0 => diverge
  | S fuel' =>
      get_entity e ;;
      hook HWillUnmount e ;;
      Js.forEach (children_of e) (unmount fuel') ;;
      unmount_self e
  end.

(** The parent link of the host node, set when it has none yet. *)
Definition set_to_parent (e : EntityId) (parentNode : option NodeId) : M State unit :=
  this <- get_entity e ;;
  n <- defined (node this) ;;
  nd <- get_node n ;;
  match nparent nd with
  | Some _ => ret tt
  | None =>
      match parentNode with
      | Some pn => upd_node n (set_nparent (Some pn))
      | None =>
          match parent this with
          | Some p => pe <- get_entity p ;; upd_node n (set_nparent (node pe))
          | None => ret tt
          end
      end
  end.

Definition mount_begin (e : EntityId) (cx : option Context) : M State unit :=
  this <- get_entity e ;;
  when (negb (isMounted this))
    (upd_entity e (set_context cx) ;;
     n <- onMount e ;;
     upd_entity e (set_node (Some n)) ;;
     _updateCoreProps e).

Definition mount_end (e : EntityId) : M State unit :=
  this <- get_entity e ;;
  when (negb (isMounted this))
    (hook HDidMount e ;;
     this <- get_entity e ;;
     when (ref this) (log (EvEntity HRef e) ;; ref_callback e) ;;
     this <- get_entity e ;;
     ctx <- defined (context this) ;;
     o <- Host.observable_add (ctx_scene ctx) e ;;
     upd_entity e (set_obs (Some o)) ;;
     upd_entity e (set_isMounted true) ;;
     Js.forEach (components_of e) (_mountComponent e)).

Fixpoint _mount (fuel : nat) (e : EntityId) (cx : option Context)
         (parentNode : option NodeId) : M State unit :=
  match fuel with
  | 0 => diverge
  | S fuel' =>
      mount_begin e cx ;;
      set_to_parent e parentNode ;;
      Js.forEach (children_of e)
        (fun child =>
           cc <- getChildContext e ;;
           get_entity child ;;
           upd_entity child (set_childContext cc) ;;
           this <- get_entity e ;;
           _mount fuel' child (context this) None) ;;
      mount_end e
  end.

Definition remount (fuel : nat) (e : EntityId) : M State unit :=
  this <- get_entity e ;;
  if negb (isMounted this) then ret tt
  else
    unmount fuel e ;;
    this <- get_entity e ;;
    _mount fuel e (context this) None.

Definition mountChild (fuel : nat) (p child : EntityId) : M State EntityId :=
  get_entity p ;;
  ch <- get_entity child ;;
  if isMounted ch then throw (JsError "Child already mounted.")
  else
    upd_entity p (fun x => set_children (children x ++ [child]) x) ;;
    upd_entity child (set_parent (Some p)) ;;
    this <- get_entity p ;;
    hook (HParentUpdated (isMounted this)) child ;;
    this <- get_entity p ;;
    when (isMounted this)
      (cc <- getChildContext p ;;
       upd_entity child (set_childContext cc) ;;
       this <- get_entity p ;;
       _mount fuel child (context this) None ;;
       hook HChildrenUpdated p) ;;
    ret child.

(** The callback of the loop in [addComponents]. *)
Definition addComponents_step (e c : CompId) : M State unit :=
  this <- get_entity e ;;
  if decide (Js.indexOf c (components this) = (-1)%Z) then
    upd_entity e (fun x => set_components (components x ++ [c]) x) ;;
    this <- get_entity e ;;
    when (isMounted this) (_mountComponent e c)
  else ret tt.

Definition addComponents (e : EntityId) (cs : list CompId) : M State EntityId :=
  get_entity e ;;
  Js.forEach_list cs (addComponents_step e) ;;
  ret e.

Definition addComponent (e : EntityId) (c : CompId) : M State EntityId :=
  addComponents e [c].

Definition removeComponent (e : EntityId) (c : CompId) : M State EntityId :=
  this <- get_entity e ;;
  upd_entity e (fun x => set_components (Js.splice1 (Js.indexOf c (components this)) (components x)) x) ;;
  chook CUnmount c ;;
  ret e.

Fixpoint notifyChildren (fuel : nat) (e : EntityId) : M State unit :=
  match fuel with
  | 0 => diverge
  | S fuel' =>
      Js.forEach (children_of e)
        (fun child =>
           get_entity child ;;
           this <- get_entity e ;;
           hook (HParentUpdated (isMounted this)) child ;;
           notifyChildren fuel' child)
  end.

Definition updateProps (fuel : nat) (e : EntityId) (newProps : option Loc) : M State unit :=
  this <- get_entity e ;;
  proceed <- (if negb (isMounted this) then ret true else willUpdate e newProps) ;;
  when proceed
    (this <- get_entity e ;;
     oldProps <- alloc_obj ∅ ;;
     modify (fun s => with_store (Props.assign oldProps (Some (props this)) (store s)) s) ;;
     modify (fun s => with_store (Props.assign (props this) newProps (store s)) s) ;;
     upd_entity e (set_props (props this)) ;;
     this <- get_entity e ;;
     when (isMounted this)
       (Js.forEach (components_of e)
          (fun c =>
             cmp <- get_comp c ;;
             if loaded cmp then chook CEntityUpdated c else _mountComponent e c) ;;
        hook (HOnUpdated oldProps) e ;;
        _updateCoreProps e ;;
        notifyChildren fuel e)).

(** [target.<k> = v]: a field of an object is written; for a primitive
    [target] the assignment throws (the module is strict code). *)
Definition put (target : Val) (k : string) (v : Val) : M State unit :=
  match target with
  | VRef l => modify (fun s => with_store (Props.set l k v (store s)) s)
  | _ => throw TypeError
  end.

(** The tail of [_onBeforeRender]: the node's vectors are written back
    into the props that are present. *)
Definition write_back (e : EntityId) : M State unit :=
  this <- get_entity e ;;
  position <- prop this "position" ;;
  when (truthy position)
    (n <- defined (node this) ;;
     nd <- get_node n ;;
     put position "x" (vx (position_of nd)) ;;
     put position "y" (vy (position_of nd)) ;;
     put position "z" (vz (position_of nd))) ;;
  rotation <- prop this "rotation" ;;
  when (truthy rotation)
    (n <- defined (node this) ;;
     nd <- get_node n ;;
     put rotation "x" (ToDegrees (vx (rotation_of nd))) ;;
     put rotation "y" (ToDegrees (vy (rotation_of nd))) ;;
     put rotation "z" (ToDegrees (vz (rotation_of nd)))) ;;
  scaling <- prop this "scaling" ;;
  when (truthy scaling)
    (n <- defined (node this) ;;
     nd <- get_node n ;;
     put scaling "x" (vx (scaling_of nd)) ;;
     put scaling "y" (vy (scaling_of nd)) ;;
     put scaling "z" (vz (scaling_of nd))).

Definition _onBeforeRender (e : EntityId) : M State unit :=
  get_entity e ;;
  Js.forEach (components_of e) (chook CTick) ;;
  hook HTick e ;;
  write_back e.

End WithExternal.
End Bframe.

(** ** The nucleus entity *)

Module Nucleus.
Section WithExternal.
Context `{Ext : External}.

(** Modelled from the spec: [InternalComponentCollection] is not among
    the sources.  The spec describes it as "a collection of attached
    components"; the entity reads it through [array].  Its
    [mountComponent] appends to that array and [unmountComponent] takes
    the component out; whatever else these and the other methods
    ([mount], [unmount], [onEntityPropsWillUpdate],
    [onEntityPropsUpdated]) do is [absent_method]. *)
Definition collection_mountComponent (e : EntityId) (c : CompId) : M State unit :=
  upd_entity e (fun x => set_components (components x ++ [c]) x) ;;
  call_absent (EvCollectionMountComponent e c).

Definition collection_unmountComponent (e : EntityId) (c : CompId) : M State unit :=
  this <- get_entity e ;;
  upd_entity e (set_components (Js.splice1 (Js.indexOf c (components this)) (components this))) ;;
  call_absent (EvCollectionUnmountComponent e c).

(** [cloneDeep(x)] for an object reference [x]. *)
Definition cloneDeep_obj (l : Loc) : M State Loc :=
  fun s =>
    match Props.cloneDeep (VRef l) (store s) with
    | Some (VRef l', st') => Ok l' (with_store st' s)
    | _ => Diverge
    end.

(** [constructor(props?, key?)]: [this._props = cloneDeep(props) || {}]. *)
Definition construct (props : option Loc) (key : option string) : M State EntityId :=
  p <- match props with
       | Some l => cloneDeep_obj l
       | None => alloc_obj ∅
       end ;;
  fun s =>
    Ok (length (entities s))
       (with_entities
          (entities s ++ [mkEntity None None false None p None None None [] [] key false]) s).

Definition onMount (e : EntityId) : M State NodeId :=
  hook HOnMount e ;;
  this <- get_entity e ;;
  ctx <- defined (context this) ;;
  Host.new_mesh (ctx_scene ctx).

Definition getChildContext (e : EntityId) : M State (option Loc) :=
  hook HGetChildContext e ;; ret None.

Definition willPropsUpdate (e : EntityId) (newProps : option Loc) : M State bool :=
  hook (HWillPropsUpdate newProps) e ;; ret true.

(** The part of [unmount] after the children have been visited. *)
Definition unmount_self (e : EntityId) : M State unit :=
  call_absent (EvCollectionUnmount e) ;;
  this <- get_entity e ;;
  ctx <- defined (context this) ;;
  Host.observable_remove (ctx_scene ctx) (obs this) ;;
  n <- defined (node this) ;;
  Host.dispose_observable_remove n (disposeObs this) ;;
  upd_entity e (set_obs None) ;;
  upd_entity e (set_disposeObs None) ;;
  nd <- get_node n ;;
  when (negb (disposed nd)) (Host.dispose n) ;;
  upd_node n (set_nentity None) ;;
  upd_entity e (set_node None) ;;
  upd_entity e (set_isMounted false) ;;
  this <- get_entity e ;;
  match parent this with
  | Some p =>
      pe <- get_entity p ;;
      upd_entity p (set_children (Js.splice1 (Js.indexOf e (children pe)) (children pe)))
  | None => ret tt
  end ;;
  this <- get_entity e ;;
  ctx <- defined (context this) ;;
  call_absent (EvUnregisterEntity (ctx_sceneEntity ctx) e).

Fixpoint unmount (fuel : nat) (e : EntityId) : M State unit :=
  match fuel with
  | 0 => diverge
  | S fuel' =>
      this <- get_entity e ;;
      if negb (isMounted this) then throw (JsError "Entity not mounted")
      else
        hook HWillUnmount e ;;
        Js.forEach (children_of e)
          (fun child =>
             ch <- get_entity child ;;
             when (isMounted ch) (unmount fuel' child)) ;;
        unmount_self e
  end.

Definition set_to_parent (e : EntityId) (parentNode : option NodeId) : M State unit :=
  this <- get_entity e ;;
  n <- defined (node this) ;;
  nd <- get_node n ;;
  match nparent nd with
  | Some _ => ret tt
  | None =>
      match parentNode with
      | Some pn => upd_node n (set_nparent (Some pn))
      | None =>
          match parent this with
          | Some p => pe <- get_entity p ;; upd_node n (set_nparent (node pe))
          | None => ret tt
          end
      end
  end.

Definition mount_begin (e : EntityId) (cx : option Context) : M State unit :=
  upd_entity e (set_context cx) ;;
  n <- onMount e ;;
  upd_entity e (set_node (Some n)) ;;
  nd <- get_node n ;;
  match nentity nd with
  | Some _ => ret tt
  | None => upd_node n (set_nentity (Some e))
  end.

Definition mount_end (e : EntityId) (cx : option Context) : M State unit :=
  this <- get_entity e ;;
  ctx <- defined (context this) ;;
  call_absent (EvCollectionMount e (ctx_engine ctx) (ctx_scene ctx) (ctx_sceneEntity ctx)) ;;
  hook HDidMount e ;;
  this <- get_entity e ;;
  ctx <- defined (context this) ;;
  o <- Host.observable_add (ctx_scene ctx) e ;;
  upd_entity e (set_obs (Some o)) ;;
  this <- get_entity e ;;
  n <- defined (node this) ;;
  o' <- Host.dispose_observable_add n e ;;
  upd_entity e (set_disposeObs (Some o')) ;;
  arg <- defined cx ;;
  call_absent (EvRegisterEntity (ctx_sceneEntity arg) e).

Fixpoint _mount (fuel : nat) (e : EntityId) (cx : option Context)
         (parentNode : option NodeId) : M State unit :=
  match fuel with
  | 0 => diverge
  | S fuel' =>
      this <- get_entity e ;;
      if isMounted this then throw (JsError "Entity already mounted")
      else
        mount_begin e cx ;;
        set_to_parent e parentNode ;;
        upd_entity e (set_isMounted true) ;;
        Js.forEach (children_of e)
          (fun child =>
             cc <- getChildContext e ;;
             get_entity child ;;
             upd_entity child (set_childContext cc) ;;
             this <- get_entity e ;;
             _mount fuel' child (context this) None) ;;
        mount_end e cx
  end.

Definition remount (fuel : nat) (e : EntityId) : M State unit :=
  this <- get_entity e ;;
  if negb (isMounted this) then throw (JsError "Not mounted.")
  else
    unmount fuel e ;;
    this <- get_entity e ;;
    _mount fuel e (context this) None.

Definition mountChild (fuel : nat) (p child : EntityId) : M State EntityId :=
  get_entity p ;;
  ch <- get_entity child ;;
  if isMounted ch then throw (JsError "Child already mounted.")
  else
    upd_entity p (fun x => set_children (children x ++ [child]) x) ;;
    upd_entity child (set_parent (Some p)) ;;
    this <- get_entity p ;;
    hook (HParentUpdated (isMounted this)) child ;;
    this <- get_entity p ;;
    when (isMounted this)
      (cc <- getChildContext p ;;
       upd_entity child (set_childContext cc) ;;
       this <- get_entity p ;;
       _mount fuel child (context this) None) ;;
    ret child.

(** [c.constructor.name] *)
Definition kind_at (s : State) (c : CompId) : option string :=
  kind <$> comps s !! c.

(** [this.components.find(c => c.constructor.name === name)] *)
Definition find_kind (s : State) (name : string) (cs : list CompId) : option CompId :=
  snd <$> list_find (fun c => kind_at s c = Some name) cs.

Definition getComponent (e : EntityId) (name : string) : M State (option CompId) :=
  this <- get_entity e ;;
  gets (fun s => find_kind s name (components this)).

Definition hasComponent (e : EntityId) (name : string) : M State bool :=
  r <- getComponent e name ;; ret (bool_decide (is_Some r)).

(** The callback of the loop in [mountComponents]. *)
Definition mountComponents_step (e c : CompId) : M State unit :=
  this <- get_entity e ;;
  cmp <- get_comp c ;;
  found <- gets (fun s => find_kind s (kind cmp) (components this)) ;;
  match found with
  | Some _ => throw (JsError "An instance of this component is already mounted.")
  | None => collection_mountComponent e c
  end.

Definition mountComponents (e : EntityId) (cs : list CompId) : M State unit :=
  get_entity e ;;
  Js.forEach_list cs (mountComponents_step e).

Definition mountComponent (e : EntityId) (c : CompId) : M State CompId :=
  mountComponents e [c] ;; ret c.

Definition unmountComponent (e : EntityId) (c : CompId) : M State unit :=
  this <- get_entity e ;;
  if (Js.indexOf c (components this) <? 0)%Z
  then throw (JsError "This component is not mounted to this entity.")
  else collection_unmountComponent e c.

Definition _notifyChildren (e : EntityId) : M State unit :=
  Js.forEach (children_of e)
    (fun child =>
       cc <- getChildContext e ;;
       get_entity child ;;
       upd_entity child (set_childContext cc) ;;
       this <- get_entity e ;;
       hook (HParentUpdated (isMounted this)) child).

Definition updateProps (e : EntityId) (newProps : option Loc) : M State unit :=
  this <- get_entity e ;;
  proceed <- (if negb (isMounted this) then ret true else willPropsUpdate e newProps) ;;
  when proceed
    (this <- get_entity e ;;
     oldProps <- cloneDeep_obj (props this) ;;
     target <- match newProps with
               | Some l => cloneDeep_obj l
               | None => throw TypeError
               end ;;
     this <- get_entity e ;;
     modify (fun s => with_store (Props.assign target (Some (props this)) (store s)) s) ;;
     upd_entity e (set_props target) ;;
     this <- get_entity e ;;
     when (isMounted this)
       (call_absent (EvCollectionPropsWillUpdate e oldProps) ;;
        hook (HOnPropsUpdated oldProps) e ;;
        call_absent (EvCollectionPropsUpdated e) ;;
        _notifyChildren e)).

(** [_tryExecute(func)]: an exception of [func] is logged, not
    propagated. *)
Definition _tryExecute (func : M State unit) : M State unit :=
  try_catch func (fun _ => log EvConsoleLog).

(** [component.isEnabled], for a component that exists. *)
Definition enabled (s : State) (c : CompId) : bool :=
  from_option isEnabled false (comps s !! c).

(** [this.components.filter(component => component.isEnabled)] *)
Fixpoint filter_enabled (cs : list CompId) : M State (list CompId) :=
  match cs with
  | [] => ret []
  | c :: r =>
      cmp <- get_comp c ;;
      rest <- filter_enabled r ;;
      ret (if isEnabled cmp then c :: rest else rest)
  end.

(** The component's [onUpdate] is looked up and bound outside
    [_tryExecute]; its body runs inside. *)
Definition _onBeforeRender (e : EntityId) : M State unit :=
  this <- get_entity e ;;
  cs <- filter_enabled (components this) ;;
  Js.forEach_list cs (fun c => get_comp c ;; _tryExecute (call_component COnUpdate c)) ;;
  _tryExecute (hook HOnUpdate e).

Definition _onDispose (fuel : nat) (e : EntityId) : M State unit :=
  this <- get_entity e ;;
  when (isMounted this) (unmount fuel e).

End WithExternal.
End Nucleus.
(** ** The context helper ([src/core/common/NucleusHelper.ts]) *)

Module NucleusHelper.

Abbreviation CtxRef := nat (only parsing).
Abbreviation RegistrarId := nat (only parsing).

(** [INucleusContext] *)
Record INucleusContext : Type := mkINucleusContext {
  engine : EngineId;
  systemRegistrar : RegistrarId;
  scene : SceneId
}.

(** A host scene: [isDisposed], [getEngine()] and the property
    [__nucleus__] the helper keeps on it. *)
Record Scene : Type := mkScene {
  isDisposed : bool;
  getEngine : EngineId;
  nucleus_context : option CtxRef
}.

(** The heap the helper works on.  [contexts] holds the context
    objects (a reference is an index), [registrars] one entry per
    [SystemRegistrar] constructed, with the scene it was constructed
    for, [transformNodes] the scene of each node ([getScene()]) and
    [entity_context] the [context] of each entity. *)
Record HState : Type := mkHState {
  scenes : list Scene;
  contexts : list INucleusContext;
  registrars : list SceneId;
  transformNodes : list SceneId;
  entity_context : list (option CtxRef)
}.

Inductive MountingPoint : Type :=
  | MPContext (c : CtxRef)
  | MPEntity (e : EntityId)
  | MPTransformNode (n : NodeId)
  | MPScene (sc : SceneId).

Definition set_nucleus_context (v : option CtxRef) (x : Scene) : Scene :=
  mkScene (isDisposed x) (getEngine x) v.

(** Modelled from the spec: [SystemRegistrar] is not among the
    sources; the spec calls it "a process-wide registrar keyed on the
    host scene instance".  Constructing one is recorded. *)
Definition new_SystemRegistrar (sc : SceneId) : M HState RegistrarId :=
  fun s =>
    Ok (length (registrars s))
       (mkHState (scenes s) (contexts s) (registrars s ++ [sc]) (transformNodes s)
                 (entity_context s)).

Definition _initializeFor (sc : SceneId) : M HState CtxRef :=
  x <- (fun s => defined (scenes s !! sc) s) ;;
  if isDisposed x then throw (JsError "Scene has been disposed")
  else
    r <- new_SystemRegistrar sc ;;
    fun s =>
      let c := length (contexts s) in
      Ok c (mkHState (alter (set_nucleus_context (Some c)) sc (scenes s))
                     (contexts s ++ [mkINucleusContext (getEngine x) r sc])
                     (registrars s) (transformNodes s) (entity_context s)).

(** The result is [undefined] only for an entity without context. *)
Definition getContextFor (mountingPoint : MountingPoint) : M HState (option CtxRef) :=
  match mountingPoint with
  | MPContext c =>
      (fun s => defined (contexts s !! c) s) ;; ret (Some c)
  | MPEntity e =>
      fun s => defined (entity_context s !! e) s
  | _ =>
      sc <- match mountingPoint with
            | MPTransformNode n => fun s => defined (transformNodes s !! n) s
            | MPScene sc => ret sc
            | _ => throw TypeError
            end ;;
      x <- (fun s => defined (scenes s !! sc) s) ;;
      match nucleus_context x with
      | Some c => ret (Some c)
      | None => c <- _initializeFor sc ;; ret (Some c)
      end
  end.

End NucleusHelper.

(** * Reasoning principles *)

Lemma bind_Ok {St A B} (m : M St A) (k : A -> M St B) s b s' :
  bind m k s = Ok b s' <-> exists a s1, m s = Ok a s1 /\ k a s1 = Ok b s'.
Proof.
  unfold bind. split.
  - destruct (m s) as [a s1| |] eqn:E; try discriminate. eauto.
  - intros (a & s1 & -> & H). exact H.
Qed.

Lemma bind_Throw {St A B} (m : M St A) (k : A -> M St B) s err s' :
  bind m k s = Throw err s' <->
  m s = Throw err s' \/ exists a s1, m s = Ok a s1 /\ k a s1 = Throw err s'.
Proof.
  unfold bind. split.
  - destruct (m s) as [a s1| |] eqn:E; try discriminate.
    + intros H. right. exists a, s1. split; [reflexivity | exact H].
    + intros [= -> ->]. by left.
  - intros [-> | (a & s1 & -> & H)]; auto.
Qed.

(** The state a call leaves behind, whether it returns or throws. *)
Definition final {St A} (r : Res St A) : option St :=
  match r with
  | Ok _ s | Throw _ s => Some s
  | Diverge => None
  end.

Section Preserves.
Context {St : Type} (R : St -> St -> Prop) `{!Reflexive R} `{!Transitive R}.

(** Every outcome of [m] is [R]-related to the state the call started
    in. *)
Definition preserves {A} (m : M St A) : Prop :=
  forall s s', final (m s) = Some s' -> R s s'.

Lemma preserves_ret {A} (a : A) : preserves (ret a).
Proof. intros s s' [= <-]. reflexivity. Qed.

Lemma preserves_throw {A} err : preserves (@throw St A err).
Proof. intros s s' [= <-]. reflexivity. Qed.

Lemma preserves_diverge {A} : preserves (@diverge St A).
Proof. intros s s' [=]. Qed.

Lemma preserves_gets {A} (f : St -> A) : preserves (gets f).
Proof. intros s s' [= <-]. reflexivity. Qed.

Lemma preserves_defined {A} (o : option A) : preserves (defined o).
Proof. destruct o; [apply preserves_ret | apply preserves_throw]. Qed.

Lemma preserves_read {A} (f : St -> option A) : preserves (fun s => defined (f s) s).
Proof. intros s s'. destruct (f s); intros [= <-]; reflexivity. Qed.

Lemma preserves_modify (f : St -> St) : (forall s, R s (f s)) -> preserves (modify f).
Proof. intros H s s' [= <-]. apply H. Qed.

Lemma preserves_bind {A B} (m : M St A) (k : A -> M St B) :
  preserves m -> (forall a, preserves (k a)) -> preserves (bind m k).
Proof.
  intros Hm Hk s s'. unfold bind.
  destruct (m s) as [a s1| err s1|] eqn:E; simpl.
  - intros H. transitivity s1.
    + apply Hm. by rewrite E.
    + by apply (Hk a).
  - intros [= <-]. apply Hm. by rewrite E.
  - discriminate.
Qed.

Lemma preserves_when (b : bool) (m : M St unit) : preserves m -> preserves (when b m).
Proof. destruct b; [done | intros _; apply preserves_ret]. Qed.

Lemma preserves_try_catch {A} (m : M St A) (h : Error -> M St A) :
  preserves m -> (forall err, preserves (h err)) -> preserves (try_catch m h).
Proof.
  intros Hm Hh s s'. unfold try_catch.
  destruct (m s) as [a s1| err s1|] eqn:E; simpl.
  - intros [= <-]. apply Hm. by rewrite E.
  - intros H. transitivity s1.
    + apply Hm. by rewrite E.
    + by apply (Hh err).
  - discriminate.
Qed.

Lemma preserves_forEach_from {A} (arr : St -> list A) (cb : A -> M St unit) todo k :
  (forall x, preserves (cb x)) -> preserves (Js.forEach_from arr cb todo k).
Proof.
  intros Hcb. revert k. induction todo as [|todo IH]; intros k; simpl.
  - apply preserves_ret.
  - intros s s'. destruct (arr s !! k) as [x|].
    + apply preserves_bind; auto.
    + apply IH.
Qed.

Lemma preserves_forEach {A} (arr : St -> list A) (cb : A -> M St unit) :
  (forall x, preserves (cb x)) -> preserves (Js.forEach arr cb).
Proof.
  intros Hcb s s'. unfold Js.forEach. by apply preserves_forEach_from.
Qed.

Lemma preserves_forEach_list {A} (l : list A) (cb : A -> M St unit) :
  (forall x, preserves (cb x)) -> preserves (Js.forEach_list l cb).
Proof.
  intros Hcb. induction l as [|x l IH]; simpl.
  - apply preserves_ret.
  - apply preserves_bind; auto.
Qed.

Lemma preserves_Ok {A} (m : M St A) s a s' : preserves m -> m s = Ok a s' -> R s s'.
Proof. intros H E. apply H. by rewrite E. Qed.

Lemma preserves_Throw {A} (m : M St A) s err s' :
  preserves m -> m s = Throw err s' -> R s s'.
Proof. intros H E. apply H. by rewrite E. Qed.
End Preserves.

(** The same for calls that return: [R] relates the state before to the
    state after a normal return. *)
Section Returns.
Context {St : Type} (R : St -> St -> Prop) `{!Reflexive R} `{!Transitive R}.

Definition returns {A} (m : M St A) : Prop :=
  forall s a s', m s = Ok a s' -> R s s'.

Lemma preserves_returns {A} (m : M St A) : preserves R m -> returns m.
Proof. intros H s a s' E. apply H. by rewrite E. Qed.

Lemma returns_bind {A B} (m : M St A) (k : A -> M St B) :
  returns m -> (forall a, returns (k a)) -> returns (bind m k).
Proof.
  intros Hm Hk s b s' (a & s1 & E1 & E2)%bind_Ok.
  transitivity s1; [by apply (Hm s a) | by apply (Hk a s1 b)].
Qed.

Lemma returns_throw {A} err : returns (@throw St A err).
Proof. intros s a s' [=]. Qed.

Lemma returns_diverge {A} : returns (@diverge St A).
Proof. intros s a s' [=]. Qed.

Lemma returns_when (b : bool) (m : M St unit) : returns m -> returns (when b m).
Proof. destruct b; [done|]. intros _ s a s' [=]; subst. reflexivity. Qed.

Lemma returns_forEach_from {A} (arr : St -> list A) (cb : A -> M St unit) todo k :
  (forall x, returns (cb x)) -> returns (Js.forEach_from arr cb todo k).
Proof.
  intros Hcb. revert k. induction todo as [|todo IH]; intros k; simpl.
  - intros s a s' [=]; subst. reflexivity.
  - intros s a s'. destruct (arr s !! k) as [x|].
    + apply returns_bind; auto.
    + apply IH.
Qed.

Lemma returns_forEach {A} (arr : St -> list A) (cb : A -> M St unit) :
  (forall x, returns (cb x)) -> returns (Js.forEach arr cb).
Proof.
  intros Hcb s a s'. unfold Js.forEach. by apply returns_forEach_from.
Qed.
End Returns.

(** Peels the monadic structure off a [preserves] or [returns] goal,
    down to the primitive steps. *)
Ltac pres_struct :=
  repeat first
    [ progress intros
    | apply preserves_bind
    | apply preserves_ret
    | apply preserves_throw
    | apply preserves_diverge
    | apply preserves_gets
    | apply preserves_defined
    | apply preserves_read
    | apply preserves_when
    | apply preserves_forEach
    | apply preserves_forEach_list
    | apply preserves_try_catch
    | apply returns_bind
    | apply returns_throw
    | apply returns_diverge
    | apply returns_when
    | apply returns_forEach
    | match goal with
      | |- Reflexive _ => apply _
      | |- Transitive _ => apply _
      | |- preserves _ (match ?x with _ => _ end) => destruct x
      | |- returns _ (match ?x with _ => _ end) => destruct x
      end ].


(** Calls that return or throw on every state. *)
Definition settles {St A} (m : M St A) : Prop := forall s, m s <> Diverge.

Lemma settles_ret {St A} (a : A) : settles (@ret St A a).
Proof. by intros s. Qed.

Lemma settles_throw {St A} err : settles (@throw St A err).
Proof. by intros s. Qed.

Lemma settles_gets {St A} (f : St -> A) : settles (gets f).
Proof. by intros s. Qed.

Lemma settles_modify {St} (f : St -> St) : settles (modify f).
Proof. by intros s. Qed.

Lemma settles_defined {St A} (o : option A) : settles (@defined St A o).
Proof. by destruct o. Qed.

Lemma settles_read {St A} (f : St -> option A) : settles (fun s => defined (f s) s).
Proof. intros s. by destruct (f s). Qed.

Lemma settles_bind {St A B} (m : M St A) (k : A -> M St B) :
  settles m -> (forall a, settles (k a)) -> settles (bind m k).
Proof.
  intros Hm Hk s. unfold bind. destruct (m s) as [a s1| |] eqn:E; [apply Hk | done |].
  by destruct (Hm s).
Qed.

Lemma settles_when {St} (b : bool) (m : M St unit) : settles m -> settles (when b m).
Proof. destruct b; [done | intros _; apply settles_ret]. Qed.

Lemma settles_try_catch {St A} (m : M St A) (h : Error -> M St A) :
  settles m -> (forall err, settles (h err)) -> settles (try_catch m h).
Proof.
  intros Hm Hh s. unfold try_catch. destruct (m s) as [a s1|err s1|] eqn:E; [done | apply Hh |].
  by destruct (Hm s).
Qed.

Lemma settles_forEach_from {St A} (arr : St -> list A) (cb : A -> M St unit) todo k :
  (forall x, settles (cb x)) -> settles (Js.forEach_from arr cb todo k).
Proof.
  intros Hcb. revert k. induction todo as [|todo IH]; intros k; simpl.
  - apply settles_ret.
  - intros s. destruct (arr s !! k) as [x|].
    + apply settles_bind; auto.
    + apply IH.
Qed.

Lemma settles_forEach {St A} (arr : St -> list A) (cb : A -> M St unit) :
  (forall x, settles (cb x)) -> settles (Js.forEach arr cb).
Proof. intros Hcb s. unfold Js.forEach. by apply settles_forEach_from. Qed.

Lemma settles_forEach_list {St A} (l : list A) (cb : A -> M St unit) :
  (forall x, settles (cb x)) -> settles (Js.forEach_list l cb).
Proof.
  intros Hcb. induction l as [|x l IH]; simpl; [apply settles_ret|].
  apply settles_bind; auto.
Qed.

Ltac settle_struct :=
  repeat first
    [ progress intros
    | apply settles_bind
    | apply settles_ret
    | apply settles_throw
    | apply settles_gets
    | apply settles_modify
    | apply settles_defined
    | apply settles_read
    | apply settles_when
    | apply settles_try_catch
    | apply settles_forEach
    | apply settles_forEach_list
    | match goal with
      | |- settles (match ?x with _ => _ end) => destruct x
      end ].
(** * Records and traces *)

Lemma with_trace_id s : with_trace (trace s) s = s.
Proof. by destruct s. Qed.

Lemma with_trace_twice t1 t2 s : with_trace t2 (with_trace t1 s) = with_trace t2 s.
Proof. done. Qed.

Lemma take_drop_step {A} (l : list A) k n x :
  l !! k = Some x -> take (S n) (drop k l) = x :: take n (drop (S k) l).
Proof.
  revert k. induction l as [|y l IH]; intros [|k]; simpl; try done.
  - intros [= ->]. by rewrite drop_0.
  - intros H. by apply IH.
Qed.

Lemma take_drop_none {A} (l : list A) k n : l !! k = None -> take n (drop k l) = [].
Proof.
  intros H%lookup_ge_None. rewrite drop_ge; [|done]. by destruct n.
Qed.

(** A loop whose callback only records a call. *)
Lemma forEach_from_log {A} (arr : State -> list A) (ev : A -> Event) todo k s :
  (forall s t, arr (with_trace t s) = arr s) ->
  Js.forEach_from arr (fun x => log (ev x)) todo k s
  = Ok tt (with_trace (trace s ++ map ev (take todo (drop k (arr s)))) s).
Proof.
  intros Harr. revert k s. induction todo as [|todo IH]; intros k s; simpl.
  - unfold ret. by rewrite app_nil_r, with_trace_id.
  - destruct (arr s !! k) as [x|] eqn:E.
    + unfold bind, log, modify. rewrite IH, Harr, with_trace_twice.
      rewrite (take_drop_step _ _ _ _ E). cbn [trace with_trace map].
      by rewrite <- app_assoc.
    + rewrite IH, (take_drop_none _ _ _ E), (take_drop_none _ (S k) todo); [done|].
      apply lookup_ge_None. apply lookup_ge_None in E. lia.
Qed.

Lemma forEach_log {A} (arr : State -> list A) (ev : A -> Event) s :
  (forall s t, arr (with_trace t s) = arr s) ->
  Js.forEach arr (fun x => log (ev x)) s
  = Ok tt (with_trace (trace s ++ map ev (arr s)) s).
Proof.
  intros Harr. unfold Js.forEach. rewrite forEach_from_log by done.
  by rewrite drop_0, firstn_all.
Qed.

Lemma forEach_list_log {A} (l : list A) (ev : A -> Event) (wrap : M State unit -> M State unit) s :
  (forall x s, wrap (log (ev x)) s = log (ev x) s) ->
  Js.forEach_list l (fun x => wrap (log (ev x))) s
  = Ok tt (with_trace (trace s ++ map ev l) s).
Proof.
  intros Hw. revert s. induction l as [|x l IH]; intros s; simpl.
  - unfold ret. by rewrite app_nil_r, with_trace_id.
  - unfold bind. rewrite Hw. unfold log, modify. rewrite IH. simpl.
    by rewrite <- app_assoc.
Qed.

Lemma components_of_with_trace e s t : components_of e (with_trace t s) = components_of e s.
Proof. done. Qed.

Lemma tryExecute_log ev s : Nucleus._tryExecute (log ev) s = log ev s.
Proof. done. Qed.

(** * Frames *)

(** [keeps f]: the part [f] of the state is the same before and after. *)
Definition keeps {St A} (f : St -> A) (s s' : St) : Prop := f s' = f s.

#[global] Instance keeps_refl {St A} (f : St -> A) : Reflexive (keeps f).
Proof. by intros s. Qed.
#[global] Instance keeps_trans {St A} (f : St -> A) : Transitive (keeps f).
Proof. intros a b c H1 H2. unfold keeps in *. congruence. Qed.

(** Entity by entity, [P] relates the heap before to the heap after;
    entities may have been created. *)
Definition entity_rel (P : Entity -> Entity -> Prop) (s s' : State) : Prop :=
  forall e x, entities s !! e = Some x -> exists x', entities s' !! e = Some x' /\ P x x'.

#[global] Instance entity_rel_refl P `{!Reflexive P} : Reflexive (entity_rel P).
Proof. intros s e x E. by exists x. Qed.
#[global] Instance entity_rel_trans P `{!Transitive P} : Transitive (entity_rel P).
Proof.
  intros a b c H1 H2 e x E.
  destruct (H1 e x E) as (y & Ey & Hxy). destruct (H2 e y Ey) as (z & Ez & Hyz).
  exists z. split; [done|]. by trans y.
Qed.

Ltac unfold_prims :=
  unfold get_entity, get_comp, get_node, upd_entity, upd_comp, upd_node, log, hook,
    alloc_obj, alloc_component, Host.new_mesh, Host.dispose, Host.observable_add,
    Host.observable_remove, Host.dispose_observable_add, Host.dispose_observable_remove,
    Bframe.onMount, Bframe.getChildContext, Bframe.willUpdate,
    Nucleus.onMount, Nucleus.getChildContext, Nucleus.willPropsUpdate in *.

(** Closes [preserves (keeps f) m] when no step of [m] writes [f]. *)
Ltac frame :=
  unfold_prims; pres_struct;
  try (apply preserves_modify; intros; reflexivity);
  try (intros ? ? [= <-]; reflexivity).

Lemma entity_rel_of_keeps P `{!Reflexive P} {A} (m : M State A) :
  preserves (keeps entities) m -> preserves (entity_rel P) m.
Proof.
  intros H s s' E. apply H in E. unfold keeps in E. intros e x Ex.
  exists x. by rewrite E.
Qed.

Lemma entity_rel_upd P `{!Reflexive P} e f :
  (forall x, P x (f x)) -> preserves (entity_rel P) (upd_entity e f).
Proof.
  intros H. apply preserves_modify. intros s i x Ex. simpl.
  destruct (decide (i = e)) as [->|Hne].
  - exists (f x). by rewrite list_lookup_alter_eq, Ex.
  - exists x. by rewrite list_lookup_alter_ne.
Qed.

Lemma entity_rel_lookup P s s' e x :
  entity_rel P s s' -> entities s !! e = Some x ->
  exists x', entities s' !! e = Some x' /\ P x x'.
Proof. intros H. apply H. Qed.
(** * Inversion of primitive steps *)

Lemma get_entity_Ok e s x s1 :
  get_entity e s = Ok x s1 -> entities s !! e = Some x /\ s1 = s.
Proof. unfold get_entity. destruct (entities s !! e); simpl; by intros [= -> ->]. Qed.

Lemma get_comp_Ok c s x s1 :
  get_comp c s = Ok x s1 -> comps s !! c = Some x /\ s1 = s.
Proof. unfold get_comp. destruct (comps s !! c); simpl; by intros [= -> ->]. Qed.

Lemma get_node_Ok n s x s1 :
  get_node n s = Ok x s1 -> nodes s !! n = Some x /\ s1 = s.
Proof. unfold get_node. destruct (nodes s !! n); simpl; by intros [= -> ->]. Qed.

Lemma defined_Ok {St A} (o : option A) (s : St) a s1 :
  defined o s = Ok a s1 -> o = Some a /\ s1 = s.
Proof. destruct o; simpl; by intros [= -> ->]. Qed.

Lemma modify_Ok {St} (f : St -> St) s a s1 : modify f s = Ok a s1 -> s1 = f s.
Proof. by intros [= _ <-]. Qed.

Lemma upd_entity_Ok e f s a s1 :
  upd_entity e f s = Ok a s1 -> s1 = with_entities (alter f e (entities s)) s.
Proof. by intros [= _ <-]. Qed.

Lemma upd_comp_Ok c f s a s1 :
  upd_comp c f s = Ok a s1 -> s1 = with_comps (alter f c (comps s)) s.
Proof. by intros [= _ <-]. Qed.

Lemma upd_node_Ok n f s a s1 :
  upd_node n f s = Ok a s1 -> s1 = with_nodes (alter f n (nodes s)) s.
Proof. by intros [= _ <-]. Qed.

Lemma log_Ok ev s a s1 : log ev s = Ok a s1 -> s1 = with_trace (trace s ++ [ev]) s.
Proof. by intros [= _ <-]. Qed.

Lemma get_entity_Some e s x : entities s !! e = Some x -> get_entity e s = Ok x s.
Proof. unfold get_entity. by intros ->. Qed.

Lemma get_comp_Some c s x : comps s !! c = Some x -> get_comp c s = Ok x s.
Proof. unfold get_comp. by intros ->. Qed.

Lemma get_node_Some n s x : nodes s !! n = Some x -> get_node n s = Ok x s.
Proof. unfold get_node. by intros ->. Qed.

(** Splits [bind m k s = Ok _ _] in [H] into its two halves. *)
Tactic Notation "bind_inv" hyp(H) "as" ident(a) ident(s1) ident(E) :=
  apply bind_Ok in H as (a & s1 & E & H).

Ltac prim_inv :=
  repeat match goal with
    | H : get_entity _ _ = Ok _ _ |- _ => apply get_entity_Ok in H as [H ->]
    | H : get_comp _ _ = Ok _ _ |- _ => apply get_comp_Ok in H as [H ->]
    | H : get_node _ _ = Ok _ _ |- _ => apply get_node_Ok in H as [H ->]
    | H : defined _ _ = Ok _ _ |- _ => apply defined_Ok in H as [H ->]
    | H : upd_entity _ _ _ = Ok _ ?s1 |- _ => apply upd_entity_Ok in H; subst s1
    | H : upd_comp _ _ _ = Ok _ ?s1 |- _ => apply upd_comp_Ok in H; subst s1
    | H : upd_node _ _ _ = Ok _ ?s1 |- _ => apply upd_node_Ok in H; subst s1
    | H : log _ _ = Ok _ ?s1 |- _ => apply log_Ok in H; subst s1
    | H : hook _ _ _ = Ok _ ?s1 |- _ => apply log_Ok in H; subst s1
    | H : modify _ _ = Ok _ ?s1 |- _ => apply modify_Ok in H; subst s1
    | H : ret _ _ = Ok _ _ |- _ => injection H as <- <-
    | H : gets _ _ = Ok _ _ |- _ => injection H as <- <-
    | H : throw _ _ = Ok _ _ |- _ => discriminate H
    | H : diverge _ = Ok _ _ |- _ => discriminate H
    end.

Lemma components_of_upd e f s x :
  entities s !! e = Some x ->
  components_of e (with_entities (alter f e (entities s)) s) = components (f x).
Proof.
  intros E. unfold components_of. simpl. by rewrite list_lookup_alter_eq, E.
Qed.

Lemma children_of_upd e f s x :
  entities s !! e = Some x ->
  children_of e (with_entities (alter f e (entities s)) s) = children (f x).
Proof.
  intros E. unfold children_of. simpl. by rewrite list_lookup_alter_eq, E.
Qed.

Lemma components_of_lookup e s x : entities s !! e = Some x -> components_of e s = components x.
Proof. unfold components_of. by intros ->. Qed.

Lemma children_of_lookup e s x : entities s !! e = Some x -> children_of e s = children x.
Proof. unfold children_of. by intros ->. Qed.

Lemma components_of_keeps e s s' : keeps entities s s' -> components_of e s' = components_of e s.
Proof. unfold keeps, components_of. by intros ->. Qed.

(** * Arrays: [indexOf] and [splice] *)

Lemma indexOf_from_spec x l i :
  ((x ∉ l) /\ Js.indexOf_from x l i = (-1)%Z) \/
  (exists n, l !! n = Some x /\ (forall j, j < n -> l !! j <> Some x) /\
             Js.indexOf_from x l i = (i + Z.of_nat n)%Z).
Proof.
  revert i. induction l as [|y l IH]; intros i; simpl.
  - left. split; [apply not_elem_of_nil | done].
  - destruct (decide (y = x)) as [->|Hne].
    + right. exists 0. split_and!; [done | lia | lia].
    + destruct (IH (i + 1)%Z) as [[Hn E] | (n & Hn & Hfirst & E)].
      * left. split; [|done]. rewrite not_elem_of_cons. done.
      * right. exists (S n). split_and!; [done | | lia].
        intros [|j] Hj; simpl; [congruence | apply Hfirst; lia].
Qed.

Lemma indexOf_notin x l : Js.indexOf x l = (-1)%Z <-> x ∉ l.
Proof.
  unfold Js.indexOf. destruct (indexOf_from_spec x l 0) as [[Hn E] | (n & Hn & _ & E)].
  - done.
  - split; [lia|]. intros []. by eapply list_elem_of_lookup_2.
Qed.

Lemma indexOf_in x l :
  x ∈ l ->
  exists n, l !! n = Some x /\ (forall j, j < n -> l !! j <> Some x) /\
            Js.indexOf x l = Z.of_nat n.
Proof.
  intros Hin. unfold Js.indexOf.
  destruct (indexOf_from_spec x l 0) as [[Hn E] | (n & Hn & Hf & E)]; [done|].
  exists n. split_and!; [done | done | lia].
Qed.

Lemma splice1_nat {A} (l : list A) n : n <= length l -> Js.splice1 (Z.of_nat n) l = delete n l.
Proof.
  intros Hn. unfold Js.splice1.
  destruct (Z.ltb_spec (Z.of_nat n) 0); [lia|]. f_equal. lia.
Qed.



(** * The context helper (C7) *)

(** A host with one scene that has been disposed and carries no context. *)
Definition disposed_scene_state : NucleusHelper.HState :=
  NucleusHelper.mkHState [NucleusHelper.mkScene true 0 None] [] [] [] [].

(** C7, as stated, fails for a disposed scene: the first call on it
    throws, creates no registrar and stores no context, and so does
    every later call. *)
Lemma C7_disposed_scene_gets_no_context :
  NucleusHelper.getContextFor (NucleusHelper.MPScene 0) disposed_scene_state
  = Throw (JsError "Scene has been disposed") disposed_scene_state.
Proof. reflexivity. Qed.

Lemma getContextFor_stored s sc x c :
  NucleusHelper.scenes s !! sc = Some x ->
  NucleusHelper.nucleus_context x = Some c ->
  NucleusHelper.getContextFor (NucleusHelper.MPScene sc) s = Ok (Some c) s.
Proof.
  intros E Hc. unfold NucleusHelper.getContextFor, bind, ret. simpl.
  rewrite E. simpl. by rewrite Hc.
Qed.

Lemma getContextFor_fresh s sc x :
  NucleusHelper.scenes s !! sc = Some x ->
  NucleusHelper.nucleus_context x = None ->
  NucleusHelper.isDisposed x = false ->
  NucleusHelper.getContextFor (NucleusHelper.MPScene sc) s
  = Ok (Some (length (NucleusHelper.contexts s)))
       (NucleusHelper.mkHState
          (alter (NucleusHelper.set_nucleus_context (Some (length (NucleusHelper.contexts s))))
                 sc (NucleusHelper.scenes s))
          (NucleusHelper.contexts s
           ++ [NucleusHelper.mkINucleusContext (NucleusHelper.getEngine x)
                 (length (NucleusHelper.registrars s)) sc])
          (NucleusHelper.registrars s ++ [sc])
          (NucleusHelper.transformNodes s)
          (NucleusHelper.entity_context s)).
Proof.
  intros E Hc Hd.
  unfold NucleusHelper.getContextFor, NucleusHelper._initializeFor,
    NucleusHelper.new_SystemRegistrar, bind, ret. simpl.
  rewrite E. simpl. rewrite Hc. rewrite E. simpl. by rewrite Hd.
Qed.

(** C7 (amended): for a scene that has not been disposed, the first
    [getContextFor] creates one registrar and one context, stores the
    context on the scene and returns it; once a context is stored on a
    scene (disposed or not), every call returns that same context and
    changes nothing, so no second registrar is made; for a disposed
    scene without context the call throws and changes nothing. *)
Theorem C7_one_context_per_scene :
  forall (s : NucleusHelper.HState) (sc : SceneId) (x : NucleusHelper.Scene),
    NucleusHelper.scenes s !! sc = Some x ->
    (forall c, NucleusHelper.nucleus_context x = Some c ->
               NucleusHelper.getContextFor (NucleusHelper.MPScene sc) s = Ok (Some c) s) /\
    (NucleusHelper.nucleus_context x = None -> NucleusHelper.isDisposed x = false ->
     exists s',
       let c := length (NucleusHelper.contexts s) in
       NucleusHelper.getContextFor (NucleusHelper.MPScene sc) s = Ok (Some c) s' /\
       NucleusHelper.contexts s' !! c
       = Some (NucleusHelper.mkINucleusContext (NucleusHelper.getEngine x)
                 (length (NucleusHelper.registrars s)) sc) /\
       NucleusHelper.registrars s' = NucleusHelper.registrars s ++ [sc] /\
       NucleusHelper.nucleus_context <$> NucleusHelper.scenes s' !! sc = Some (Some c) /\
       NucleusHelper.getContextFor (NucleusHelper.MPScene sc) s' = Ok (Some c) s') /\
    (NucleusHelper.nucleus_context x = None -> NucleusHelper.isDisposed x = true ->
     NucleusHelper.getContextFor (NucleusHelper.MPScene sc) s
     = Throw (JsError "Scene has been disposed") s).
Proof.
  intros s sc x E. split; [|split].
  - intros c Hc. by apply (getContextFor_stored s sc x).
  - intros Hc Hd. eexists. cbv zeta.
    split; [by apply (getContextFor_fresh s sc x)|].
    assert (sc < length (NucleusHelper.scenes s)) as Hlt by (by eapply lookup_lt_Some).
    simpl. split; [|split; [done|]].
    + rewrite lookup_app_r, Nat.sub_diag by done. done.
    + assert (alter (NucleusHelper.set_nucleus_context
                       (Some (length (NucleusHelper.contexts s)))) sc
                    (NucleusHelper.scenes s) !! sc
              = Some (NucleusHelper.set_nucleus_context
                        (Some (length (NucleusHelper.contexts s))) x)) as E'.
      { rewrite list_lookup_alter_eq. by rewrite E. }
      split; [by rewrite E'|].
      by eapply getContextFor_stored.
  - intros Hc Hd.
    unfold NucleusHelper.getContextFor, NucleusHelper._initializeFor, bind, ret. simpl.
    rewrite E. simpl. rewrite Hc. rewrite E. simpl. by rewrite Hd.
Qed.

(** A host with one live scene and no context yet. *)
Definition live_scene_state : NucleusHelper.HState :=
  NucleusHelper.mkHState [NucleusHelper.mkScene false 7 None] [] [] [] [].

Lemma C7_one_context_per_scene_witness :
  exists s',
    NucleusHelper.getContextFor (NucleusHelper.MPScene 0) live_scene_state = Ok (Some 0) s' /\
    NucleusHelper.registrars s' = [0] /\
    NucleusHelper.getContextFor (NucleusHelper.MPScene 0) s' = Ok (Some 0) s'.
Proof.
  destruct (C7_one_context_per_scene live_scene_state 0 (NucleusHelper.mkScene false 7 None))
    as (_ & H & _); [reflexivity|].
  destruct H as (s' & H1 & _ & H3 & _ & H5); [reflexivity | reflexivity |].
  exists s'. split; [exact H1 | split; [exact H3 | exact H5]].
Defined.

(** * The context helper: every mounting point, every sequence of calls *)

(** What links the three heaps of the helper: no scene is named twice
    among the registrars; a context stored on a scene exists and points
    back to that scene; and the scene a registrar was made for stores a
    context that holds this registrar. *)
Definition helper_ok (s : NucleusHelper.HState) : Prop :=
  NoDup (NucleusHelper.registrars s) /\
  (forall sc x c,
      NucleusHelper.scenes s !! sc = Some x -> NucleusHelper.nucleus_context x = Some c ->
      exists ctx, NucleusHelper.contexts s !! c = Some ctx /\ NucleusHelper.scene ctx = sc) /\
  (forall r sc,
      NucleusHelper.registrars s !! r = Some sc ->
      exists x c ctx,
        NucleusHelper.scenes s !! sc = Some x /\ NucleusHelper.nucleus_context x = Some c /\
        NucleusHelper.contexts s !! c = Some ctx /\ NucleusHelper.systemRegistrar ctx = r).

(** The calls of a program, one after the other; a call that throws
    leaves the state it reached. *)
Fixpoint getContextFor_all (mps : list NucleusHelper.MountingPoint)
         (s : NucleusHelper.HState) : NucleusHelper.HState :=
  match mps with
  | [] => s
  | mp :: r => getContextFor_all r (exec (NucleusHelper.getContextFor mp) s)
  end.

(** The outcomes of [getContextFor], branch by branch. *)
Lemma getContextFor_cases mp s :
  (exists r, NucleusHelper.getContextFor mp s = Ok r s) \/
  (exists err, NucleusHelper.getContextFor mp s = Throw err s) \/
  (exists sc x,
      NucleusHelper.scenes s !! sc = Some x /\
      NucleusHelper.nucleus_context x = None /\
      NucleusHelper.isDisposed x = false /\
      NucleusHelper.getContextFor mp s = NucleusHelper.getContextFor (NucleusHelper.MPScene sc) s).
Proof.
  assert (forall sc,
             (exists r, NucleusHelper.getContextFor (NucleusHelper.MPScene sc) s = Ok r s) \/
             (exists err, NucleusHelper.getContextFor (NucleusHelper.MPScene sc) s = Throw err s) \/
             (exists x,
                 NucleusHelper.scenes s !! sc = Some x /\
                 NucleusHelper.nucleus_context x = None /\
                 NucleusHelper.isDisposed x = false)) as Hscene.
  { intros sc. destruct (NucleusHelper.scenes s !! sc) as [x|] eqn:E.
    - destruct (NucleusHelper.nucleus_context x) as [c|] eqn:Hc.
      + left. exists (Some c). by apply (getContextFor_stored s sc x).
      + destruct (NucleusHelper.isDisposed x) eqn:Hd.
        * right; left. eexists.
          unfold NucleusHelper.getContextFor, NucleusHelper._initializeFor, bind, ret. simpl.
          rewrite E. simpl. rewrite Hc. rewrite E. simpl. by rewrite Hd.
        * right; right. by exists x.
    - right; left. exists TypeError.
      unfold NucleusHelper.getContextFor, bind, ret. simpl. by rewrite E. }
  destruct mp as [c|e|n|sc].
  - unfold NucleusHelper.getContextFor, bind, ret.
    destruct (NucleusHelper.contexts s !! c); simpl; eauto.
  - unfold NucleusHelper.getContextFor.
    destruct (NucleusHelper.entity_context s !! e); simpl; eauto.
  - destruct (NucleusHelper.transformNodes s !! n) as [sc|] eqn:En.
    + assert (NucleusHelper.getContextFor (NucleusHelper.MPTransformNode n) s
              = NucleusHelper.getContextFor (NucleusHelper.MPScene sc) s) as Heq.
      { unfold NucleusHelper.getContextFor, bind, ret. by rewrite En. }
      rewrite Heq. destruct (Hscene sc) as [?|[?|(x & ? & ? & ?)]]; eauto 10.
    + right; left. exists TypeError.
      unfold NucleusHelper.getContextFor, bind. by rewrite En.
  - destruct (Hscene sc) as [?|[?|(x & ? & ? & ?)]]; eauto 10.
Qed.

Lemma helper_ok_step mp s s' :
  helper_ok s -> final (NucleusHelper.getContextFor mp s) = Some s' -> helper_ok s'.
Proof.
  intros Hok Hfin.
  destruct (getContextFor_cases mp s) as [[r E]|[[err E]|(sc & x & Ex & Hc & Hd & E)]];
    rewrite E in Hfin.
  - by injection Hfin as <-.
  - by injection Hfin as <-.
  - rewrite (getContextFor_fresh s sc x Ex Hc Hd) in Hfin. injection Hfin as <-.
    destruct Hok as (Hnd & Hctx & Hreg).
    assert (sc ∉ NucleusHelper.registrars s) as Hnew.
    { intros [r Hr]%list_elem_of_lookup.
      destruct (Hreg r sc Hr) as (x' & c & ctx & Ex' & Hc' & _). congruence. }
    assert (sc < length (NucleusHelper.scenes s)) as Hlt by (by eapply lookup_lt_Some).
    split_and!; simpl.
    + apply NoDup_app. split_and!; [done | | apply NoDup_singleton].
      intros y Hy ->%list_elem_of_singleton. done.
    + intros sc' x' c Ex' Hc'. destruct (decide (sc' = sc)) as [->|Hne].
      * rewrite list_lookup_alter_eq, Ex in Ex'. injection Ex' as <-.
        simpl in Hc'. injection Hc' as <-.
        eexists. by rewrite lookup_app_r, Nat.sub_diag.
      * rewrite list_lookup_alter_ne in Ex' by done.
        destruct (Hctx sc' x' c Ex' Hc') as (ctx & Ec & Hs).
        exists ctx. split; [|done]. by apply lookup_app_l_Some.
    + intros r sc' Hr. apply lookup_app_Some in Hr as [Hr|[Hlen Hr]].
      * destruct (Hreg r sc' Hr) as (x' & c & ctx & Ex' & Hc' & Ec & Hsr).
        assert (sc' <> sc) as Hne by congruence.
        exists x', c, ctx. rewrite list_lookup_alter_ne by done.
        split_and!; [done | done | by apply lookup_app_l_Some | done].
      * apply list_lookup_singleton_Some in Hr as [Hr ->].
        eexists _, _, _. rewrite list_lookup_alter_eq, Ex. simpl.
        split_and!; [done | done | by rewrite lookup_app_r, Nat.sub_diag |].
        simpl. lia.
Qed.

Lemma helper_ok_no_context s :
  NucleusHelper.registrars s = [] ->
  (forall sc x, NucleusHelper.scenes s !! sc = Some x -> NucleusHelper.nucleus_context x = None) ->
  helper_ok s.
Proof.
  intros Hr Hs. split_and!.
  - rewrite Hr. apply NoDup_nil_2.
  - intros sc x c Ex Hc. rewrite (Hs sc x Ex) in Hc. discriminate.
  - intros r sc. rewrite Hr. by rewrite lookup_nil.
Qed.

(** However often [getContextFor] is called, on whatever mounting points
    and whether or not the calls throw, the links between scenes,
    contexts and registrars stay intact; in particular no scene ever
    gets a second registrar. *)
Theorem getContextFor_keeps_one_registrar_per_scene :
  forall (mps : list NucleusHelper.MountingPoint) (s : NucleusHelper.HState),
    helper_ok s ->
    helper_ok (getContextFor_all mps s) /\
    NoDup (NucleusHelper.registrars (getContextFor_all mps s)).
Proof.
  assert (forall mps s, helper_ok s -> helper_ok (getContextFor_all mps s)) as H.
  { induction mps as [|mp mps IH]; intros s Hok; simpl; [done|].
    apply IH. unfold exec.
    destruct (NucleusHelper.getContextFor mp s) as [r s1|err s1|] eqn:E; [| |done].
    - apply (helper_ok_step mp s). done. by rewrite E.
    - apply (helper_ok_step mp s). done. by rewrite E. }
  intros mps s Hok. split; [by apply H|]. by apply (H mps s Hok).
Qed.

(** Two scenes, the second one disposed, and a transform node in each. *)
Definition two_scenes_state : NucleusHelper.HState :=
  NucleusHelper.mkHState
    [NucleusHelper.mkScene false 7 None; NucleusHelper.mkScene true 7 None]
    [] [] [0; 1] [None].

Lemma getContextFor_keeps_one_registrar_per_scene_witness :
  NucleusHelper.registrars
    (getContextFor_all
       [NucleusHelper.MPScene 0; NucleusHelper.MPTransformNode 0; NucleusHelper.MPScene 1;
        NucleusHelper.MPContext 0; NucleusHelper.MPEntity 0; NucleusHelper.MPScene 0]
       two_scenes_state) = [0] /\
  NoDup (NucleusHelper.registrars
           (getContextFor_all
              [NucleusHelper.MPScene 0; NucleusHelper.MPTransformNode 0; NucleusHelper.MPScene 1;
               NucleusHelper.MPContext 0; NucleusHelper.MPEntity 0; NucleusHelper.MPScene 0]
              two_scenes_state)).
Proof.
  split; [reflexivity|].
  apply getContextFor_keeps_one_registrar_per_scene.
  apply helper_ok_no_context; [reflexivity|].
  intros [|[|sc]] x; simpl; intros [= <-]; reflexivity.
Defined.

(** A call that returns can be repeated: the second call returns the
    same result and changes nothing. *)
Theorem getContextFor_idempotent :
  forall (mp : NucleusHelper.MountingPoint) (s s' : NucleusHelper.HState) (r : option nat),
    NucleusHelper.getContextFor mp s = Ok r s' ->
    NucleusHelper.getContextFor mp s' = Ok r s'.
Proof.
  assert (forall sc s s' r,
             NucleusHelper.getContextFor (NucleusHelper.MPScene sc) s = Ok r s' ->
             NucleusHelper.transformNodes s' = NucleusHelper.transformNodes s /\
             NucleusHelper.getContextFor (NucleusHelper.MPScene sc) s' = Ok r s') as Hscene.
  { intros sc s s' r H.
    destruct (NucleusHelper.scenes s !! sc) as [x|] eqn:E.
    - destruct (NucleusHelper.nucleus_context x) as [c|] eqn:Hc.
      + rewrite (getContextFor_stored s sc x c E Hc) in H. injection H as <- <-.
        split; [done|]. by apply (getContextFor_stored s sc x).
      + destruct (NucleusHelper.isDisposed x) eqn:Hd.
        * exfalso. revert H.
          unfold NucleusHelper.getContextFor, NucleusHelper._initializeFor, bind, ret. simpl.
          rewrite E. simpl. rewrite Hc. rewrite E. simpl. by rewrite Hd.
        * rewrite (getContextFor_fresh s sc x E Hc Hd) in H. injection H as <- <-.
          split; [done|].
          eapply getContextFor_stored; simpl.
          -- by rewrite list_lookup_alter_eq, E.
          -- done.
    - exfalso. revert H. unfold NucleusHelper.getContextFor, bind, ret. simpl. by rewrite E. }
  intros [c|e|n|sc] s s' r H.
  - assert (s' = s) as ->; [|done].
    revert H. unfold NucleusHelper.getContextFor, bind, ret.
    destruct (NucleusHelper.contexts s !! c); simpl; by intros [= _ <-].
  - assert (s' = s) as ->; [|done].
    revert H. unfold NucleusHelper.getContextFor.
    destruct (NucleusHelper.entity_context s !! e); simpl; by intros [= _ <-].
  - destruct (NucleusHelper.transformNodes s !! n) as [sc|] eqn:En.
    + assert (forall t, NucleusHelper.transformNodes t !! n = Some sc ->
                        NucleusHelper.getContextFor (NucleusHelper.MPTransformNode n) t
                        = NucleusHelper.getContextFor (NucleusHelper.MPScene sc) t) as Heq.
      { intros t Et. unfold NucleusHelper.getContextFor, bind, ret. by rewrite Et. }
      rewrite Heq in H by done. apply Hscene in H as [Ht H].
      rewrite Heq; [done | by rewrite Ht].
    + exfalso. revert H. unfold NucleusHelper.getContextFor, bind. by rewrite En.
  - by apply Hscene in H as [_ H].
Qed.

Lemma getContextFor_idempotent_witness :
  exists s',
    NucleusHelper.getContextFor (NucleusHelper.MPTransformNode 0) two_scenes_state
    = Ok (Some 0) s' /\
    NucleusHelper.getContextFor (NucleusHelper.MPTransformNode 0) s' = Ok (Some 0) s'.
Proof.
  eexists. split; [reflexivity|].
  apply (getContextFor_idempotent (NucleusHelper.MPTransformNode 0) two_scenes_state).
  reflexivity.
Defined.


(** * The per-frame callback (C8) *)

(** [calm s s']: the entity heap is the same and no component has
    disappeared. *)
Definition calm (s s' : State) : Prop :=
  entities s' = entities s /\
  (forall c, is_Some (comps s !! c) -> is_Some (comps s' !! c)).

#[global] Instance calm_refl : Reflexive calm.
Proof. by intros s. Qed.
#[global] Instance calm_trans : Transitive calm.
Proof.
  intros a b c [E1 A1] [E2 A2]. split; [congruence|]. intros k Hk. by apply A2, A1.
Qed.

Section PerFrame.
Context `{Ext : External}.

(** The method [h] of every component returns, leaves the entity heap
    alone, makes no recorded call of its own and frees no component. *)
Definition quiet_method (h : ComponentHook) : Prop :=
  forall c s, exists s',
    component_method h c s = Ok tt s' /\ calm s s' /\ trace s' = trace s.

(** The method [h] of every component returns or throws (it does not run
    forever), makes no recorded call of its own and frees no
    component. *)
Definition settling_method (h : ComponentHook) : Prop :=
  forall c s, exists s',
    final (component_method h c s) = Some s' /\
    trace s' = trace s /\
    (forall c', is_Some (comps s !! c') -> is_Some (comps s' !! c')).

Lemma chook_quiet h c s :
  quiet_method h -> is_Some (comps s !! c) ->
  exists s', chook h c s = Ok tt s' /\ calm s s' /\ trace s' = trace s ++ [EvComponent h c].
Proof.
  intros Hq [cmp Hc]. unfold chook, call_component, bind.
  rewrite (get_comp_Some c s cmp Hc). unfold log, modify.
  destruct (Hq c (with_trace (trace s ++ [EvComponent h c]) s)) as (s' & E & Hcalm & Ht).
  exists s'. rewrite E. done.
Qed.

Lemma components_of_calm e s s' : calm s s' -> components_of e s' = components_of e s.
Proof. intros [E _]. unfold components_of. by rewrite E. Qed.

Lemma forEach_from_chook_quiet h e todo k s :
  quiet_method h ->
  Forall (fun c => is_Some (comps s !! c)) (components_of e s) ->
  exists s',
    Js.forEach_from (components_of e) (chook h) todo k s = Ok tt s' /\
    calm s s' /\
    trace s' = trace s ++ map (EvComponent h) (take todo (drop k (components_of e s))).
Proof.
  intros Hq. revert k s. induction todo as [|todo IH]; intros k s Hall; simpl.
  - exists s. by rewrite app_nil_r.
  - destruct (components_of e s !! k) as [c|] eqn:Ek.
    + assert (is_Some (comps s !! c)) as Hc.
      { rewrite Forall_forall in Hall. apply Hall. by eapply list_elem_of_lookup_2. }
      destruct (chook_quiet h c s Hq Hc) as (s1 & E1 & Hcalm1 & Ht1).
      destruct (IH (S k) s1) as (s' & E' & Hcalm' & Ht').
      { rewrite (components_of_calm e s s1 Hcalm1).
        eapply Forall_impl; [exact Hall|]. intros c' Hc'. by apply Hcalm1. }
      exists s'. unfold bind. rewrite E1, E'. split_and!; [done | by trans s1 |].
      rewrite Ht', Ht1, (components_of_calm e s s1 Hcalm1), (take_drop_step _ _ _ _ Ek).
      simpl. by rewrite <- app_assoc.
    + destruct (IH (S k) s Hall) as (s' & E' & Hcalm' & Ht').
      exists s'. split_and!; [done | done |].
      rewrite Ht', (take_drop_none _ _ _ Ek), (take_drop_none _ (S k) todo); [done|].
      apply lookup_ge_None. apply lookup_ge_None in Ek. lia.
Qed.

Lemma forEach_chook_quiet h e s :
  quiet_method h ->
  Forall (fun c => is_Some (comps s !! c)) (components_of e s) ->
  exists s',
    Js.forEach (components_of e) (chook h) s = Ok tt s' /\
    calm s s' /\
    trace s' = trace s ++ map (EvComponent h) (components_of e s).
Proof.
  intros Hq Hall.
  destruct (forEach_from_chook_quiet h e (length (components_of e s)) 0 s Hq Hall)
    as (s' & E & Hcalm & Ht).
  exists s'. split_and!; [done | done |]. by rewrite Ht, drop_0, firstn_all.
Qed.

(** The write-back records no call and leaves the entity heap alone. *)
Lemma put_keeps {A} (f : State -> A) target k v :
  (forall st s, f (with_store st s) = f s) -> preserves (keeps f) (Bframe.put target k v).
Proof.
  intros Hf. unfold Bframe.put. destruct target; pres_struct.
  apply preserves_modify. intros s. apply Hf.
Qed.

Lemma write_back_keeps {A} (f : State -> A) e :
  (forall st s, f (with_store st s) = f s) -> preserves (keeps f) (Bframe.write_back e).
Proof.
  intros Hf. unfold Bframe.write_back, Bframe.prop. unfold_prims.
  pres_struct; by apply put_keeps.
Qed.

Lemma write_back_settles e : settles (Bframe.write_back e).
Proof.
  unfold Bframe.write_back, Bframe.prop, Bframe.put. unfold_prims. settle_struct.
Qed.

Lemma bframe_onBeforeRender_calls s e x :
  entities s !! e = Some x ->
  quiet_method CTick ->
  Forall (fun c => is_Some (comps s !! c)) (components x) ->
  exists s',
    final (Bframe._onBeforeRender e s) = Some s' /\
    entities s' = entities s /\
    trace s' = trace s ++ map (EvComponent CTick) (components x) ++ [EvEntity HTick e].
Proof.
  intros Ex Hq Hall. rewrite <- (components_of_lookup e s x Ex) in *.
  destruct (forEach_chook_quiet CTick e s Hq Hall) as (s1 & E1 & [Hents _] & Ht1).
  unfold Bframe._onBeforeRender.
  unfold bind at 1. rewrite (get_entity_Some e s x Ex).
  unfold bind at 1. rewrite E1.
  unfold bind at 1. unfold hook at 1, log at 1, modify at 1.
  set (s2 := with_trace _ s1).
  destruct (Bframe.write_back e s2) as [[] s3|err s3|] eqn:E3.
  - exists s3. split; [done|].
    pose proof (preserves_Ok _ _ _ _ _ (write_back_keeps entities e (fun _ _ => eq_refl)) E3) as K1.
    pose proof (preserves_Ok _ _ _ _ _ (write_back_keeps trace e (fun _ _ => eq_refl)) E3) as K2.
    unfold keeps in *. rewrite K1, K2. subst s2. simpl.
    by rewrite Hents, Ht1, <- app_assoc.
  - exists s3. split; [done|].
    pose proof (preserves_Throw _ _ _ _ _ (write_back_keeps entities e (fun _ _ => eq_refl)) E3) as K1.
    pose proof (preserves_Throw _ _ _ _ _ (write_back_keeps trace e (fun _ _ => eq_refl)) E3) as K2.
    unfold keeps in *. rewrite K1, K2. subst s2. simpl.
    by rewrite Hents, Ht1, <- app_assoc.
  - by destruct (write_back_settles e s2).
Qed.

End PerFrame.

Section PerFrameNucleus.
Context `{Ext : External}.

Lemma filter_enabled_run cs s :
  Forall (fun c => is_Some (comps s !! c)) cs ->
  Nucleus.filter_enabled cs s = Ok (filter (fun c => Nucleus.enabled s c = true) cs) s.
Proof.
  induction 1 as [|c cs [cmp Hc] _ IH]; simpl; [done|].
  unfold bind. rewrite (get_comp_Some c s cmp Hc), IH. unfold ret. f_equal.
  assert (Nucleus.enabled s c = isEnabled cmp) as Hen.
  { unfold Nucleus.enabled. by rewrite Hc. }
  rewrite filter_cons. rewrite Hen.
  destruct (isEnabled cmp); [by rewrite decide_True | by rewrite decide_False].
Qed.

(** An attached entry that is [undefined] makes the filter throw. *)
Lemma filter_enabled_undefined cs s c :
  c ∈ cs -> comps s !! c = None -> Nucleus.filter_enabled cs s = Throw TypeError s.
Proof.
  intros Hin Hc. induction cs as [|c' cs IH]; [by apply elem_of_nil in Hin|].
  simpl. unfold bind at 1. unfold get_comp.
  destruct (comps s !! c') as [cmp|] eqn:Ec'; simpl; [|done].
  apply elem_of_cons in Hin as [->|Hin]; [congruence|].
  unfold bind. by rewrite (IH Hin).
Qed.

Definition not_console (ev : Event) : Prop := ev <> EvConsoleLog.

Lemma nucleus_update_loop l s :
  settling_method COnUpdate ->
  Forall (fun c => is_Some (comps s !! c)) l ->
  exists s' evs,
    Js.forEach_list l
      (fun c => bind (get_comp c) (fun _ => Nucleus._tryExecute (call_component COnUpdate c))) s
    = Ok tt s' /\
    trace s' = trace s ++ evs /\
    filter not_console evs = map (EvComponent COnUpdate) l.
Proof.
  intros Hs. revert s. induction l as [|c l IH]; intros s Hall; simpl.
  - exists s, []. by rewrite app_nil_r.
  - apply Forall_cons in Hall as [[cmp Hc] Hall].
    unfold bind at 1. unfold bind at 1. rewrite (get_comp_Some c s cmp Hc).
    unfold Nucleus._tryExecute, try_catch, call_component.
    unfold bind at 1. unfold log at 1, modify at 1.
    set (s0 := with_trace (trace s ++ [EvComponent COnUpdate c]) s).
    destruct (Hs c s0) as (s1 & Hfin & Ht1 & Halloc).
    assert (Forall (fun c => is_Some (comps s1 !! c)) l) as Hall1.
    { eapply Forall_impl; [exact Hall|]. intros c' Hc'. by apply Halloc. }
    destruct (component_method COnUpdate c s0) as [[] s1'|err s1'|] eqn:E; [| |done];
      injection Hfin as ->.
    + destruct (IH s1 Hall1) as (s' & evs & E' & Ht' & Hf).
      exists s', (EvComponent COnUpdate c :: evs). split_and!; [done | |].
      * rewrite Ht', Ht1. subst s0. simpl. by rewrite <- app_assoc.
      * rewrite filter_cons, decide_True by done. by rewrite Hf.
    + unfold log, modify.
      destruct (IH (with_trace (trace s1 ++ [EvConsoleLog]) s1) Hall1)
        as (s' & evs & E' & Ht' & Hf).
      exists s', (EvComponent COnUpdate c :: EvConsoleLog :: evs). split_and!; [done | |].
      * rewrite Ht'. simpl. rewrite Ht1. subst s0. simpl. by rewrite <- !app_assoc.
      * rewrite filter_cons, decide_True by done.
        rewrite filter_cons, decide_False by (intros Hn; by apply Hn). by rewrite Hf.
Qed.

Lemma nucleus_onBeforeRender_calls s e x :
  entities s !! e = Some x ->
  settling_method COnUpdate ->
  Forall (fun c => is_Some (comps s !! c)) (components x) ->
  exists s' evs,
    Nucleus._onBeforeRender e s = Ok tt s' /\
    trace s' = trace s ++ evs /\
    filter not_console evs
    = map (EvComponent COnUpdate) (filter (fun c => Nucleus.enabled s c = true) (components x))
      ++ [EvEntity HOnUpdate e].
Proof.
  intros Ex Hs Hall. unfold Nucleus._onBeforeRender.
  unfold bind at 1. rewrite (get_entity_Some e s x Ex).
  unfold bind at 1. rewrite (filter_enabled_run _ s Hall).
  destruct (nucleus_update_loop
              (filter (fun c => Nucleus.enabled s c = true) (components x)) s Hs)
    as (s1 & evs & E1 & Ht1 & Hf).
  { apply Forall_forall. intros c Hc. apply list_elem_of_filter in Hc as [_ Hc].
    rewrite Forall_forall in Hall. by apply Hall. }
  unfold bind at 1. rewrite E1.
  exists (with_trace (trace s1 ++ [EvEntity HOnUpdate e]) s1), (evs ++ [EvEntity HOnUpdate e]).
  split_and!; [done | |].
  - simpl. by rewrite Ht1, <- app_assoc.
  - rewrite filter_app, Hf. f_equal.
Qed.

(** C8 (amended): each time the host delivers the before-render event
    to a mounted entity, by calling the callback the entity registered
    when it was mounted, the per-frame method of its attached components
    is called in the order of attachment and then the entity's own
    per-frame method.  In bframe this is [tick] of every attached
    component, and it holds when every [tick] returns, attaches or
    detaches nothing and makes no call of its own, and no attached entry
    is [undefined]; the calls have all been made whether or not the
    write-back of the node's vectors that follows throws.  In nucleus it
    is [onUpdate] of every attached component whose [isEnabled] is true
    (the others are skipped), a throwing [onUpdate] is logged to the
    console and does not stop the others, and the callback returns. *)
Theorem C8_per_frame_order :
  (quiet_method CTick ->
   forall s e x,
     entities s !! e = Some x -> isMounted x = true ->
     Forall (fun c => is_Some (comps s !! c)) (components x) ->
     exists s',
       final (Bframe._onBeforeRender e s) = Some s' /\
       trace s' = trace s ++ map (EvComponent CTick) (components x) ++ [EvEntity HTick e]) /\
  (settling_method COnUpdate ->
   forall s e x,
     entities s !! e = Some x -> isMounted x = true ->
     Forall (fun c => is_Some (comps s !! c)) (components x) ->
     exists s' evs,
       Nucleus._onBeforeRender e s = Ok tt s' /\
       trace s' = trace s ++ evs /\
       filter not_console evs
       = map (EvComponent COnUpdate)
             (filter (fun c => Nucleus.enabled s c = true) (components x))
         ++ [EvEntity HOnUpdate e]).
Proof.
  split.
  - intros Hq s e x Ex _ Hall.
    destruct (bframe_onBeforeRender_calls s e x Ex Hq Hall) as (s' & H1 & _ & H2). eauto.
  - intros Hs s e x Ex _ Hall. by apply nucleus_onBeforeRender_calls.
Qed.

End PerFrameNucleus.

(** * Attaching and removing components *)

(** What [addComponents] leaves attached: the components given, in
    order, skipping every instance that is attached already. *)
Fixpoint add_new (cs attached : list nat) : list nat :=
  match cs with
  | [] => attached
  | c :: r => add_new r (if decide (c ∈ attached) then attached else attached ++ [c])
  end.

Lemma add_new_NoDup cs attached : NoDup attached -> NoDup (add_new cs attached).
Proof.
  revert attached. induction cs as [|c cs IH]; intros attached Hnd; simpl; [done|].
  apply IH. destruct (decide (c ∈ attached)); [done|].
  apply NoDup_app. split_and!; [done | | apply NoDup_singleton].
  intros y Hy ->%list_elem_of_singleton. done.
Qed.

Lemma add_new_attached cs attached :
  Forall (fun c => c ∈ attached) cs -> add_new cs attached = attached.
Proof.
  induction 1 as [|c cs Hc _ IH]; simpl; [done|]. by rewrite decide_True.
Qed.

Lemma add_new_elem_of cs attached c : c ∈ add_new cs attached <-> c ∈ attached \/ c ∈ cs.
Proof.
  revert attached. induction cs as [|c' cs IH]; intros attached; simpl.
  - rewrite elem_of_nil. tauto.
  - rewrite IH, elem_of_cons. destruct (decide (c' ∈ attached)).
    + split; [tauto|]. intros [?|[->|?]]; tauto.
    + rewrite elem_of_app, list_elem_of_singleton. tauto.
Qed.

(** The components [addComponents] attaches, in the order it attaches
    them. *)
Definition newly_added (cs attached : list nat) : list nat :=
  drop (length attached) (add_new cs attached).

Lemma add_new_split cs attached : add_new cs attached = attached ++ newly_added cs attached.
Proof.
  unfold newly_added. revert attached. induction cs as [|c cs IH]; intros attached; simpl.
  - by rewrite drop_all, app_nil_r.
  - destruct (decide (c ∈ attached)); [apply IH|].
    rewrite (IH (attached ++ [c])) at 1. rewrite <- app_assoc.
    rewrite (IH (attached ++ [c])) at 2. rewrite <- app_assoc.
    by rewrite drop_app_length.
Qed.

Lemma newly_added_cons_new c cs attached :
  c ∉ attached -> newly_added (c :: cs) attached = c :: newly_added cs (attached ++ [c]).
Proof.
  intros Hc. unfold newly_added. simpl. rewrite decide_False by done.
  rewrite (add_new_split cs (attached ++ [c])).
  set (N := newly_added cs (attached ++ [c])).
  rewrite drop_app_length.
  rewrite <- (app_assoc attached [c] N), drop_app_length. done.
Qed.

Lemma newly_added_cons_old c cs attached :
  c ∈ attached -> newly_added (c :: cs) attached = newly_added cs attached.
Proof. intros Hc. unfold newly_added. simpl. by rewrite decide_True. Qed.

Lemma set_components_same x : set_components (components x) x = x.
Proof. by destruct x. Qed.

Lemma with_entities_same s : with_entities (entities s) s = s.
Proof. by destruct s. Qed.

Lemma alter_fixed {A} (f : A -> A) (l : list A) i x :
  l !! i = Some x -> f x = x -> alter f i l = l.
Proof.
  intros E Hf. apply list_eq. intros j. destruct (decide (i = j)) as [<-|Hne].
  - by rewrite list_lookup_alter_eq, E; simpl; rewrite Hf.
  - by rewrite list_lookup_alter_ne.
Qed.

Lemma alter_at {A} (f g : A -> A) (l : list A) i x :
  l !! i = Some x -> f x = g x -> alter f i l = alter g i l.
Proof.
  intros E Hf. apply list_eq. intros j. destruct (decide (i = j)) as [<-|Hne].
  - by rewrite !list_lookup_alter_eq, E; simpl; rewrite Hf.
  - by rewrite !list_lookup_alter_ne.
Qed.

Lemma alter_set_components_twice (l l' : list nat) e (ents : list Entity) :
  alter (set_components l') e (alter (fun x => set_components (components x ++ l) x) e ents)
  = alter (set_components l') e ents.
Proof. rewrite list_alter_alter_eq. by apply list_alter_ext. Qed.

Lemma delete_last {A} (l : list A) : delete (length l - 1) l = take (length l - 1) l.
Proof.
  rewrite delete_take_drop. rewrite drop_ge by lia. by rewrite app_nil_r.
Qed.

Lemma splice1_minus_one {A} (l : list A) : Js.splice1 (-1) l = take (length l - 1) l.
Proof.
  unfold Js.splice1. simpl.
  replace (Z.to_nat (Z.max (Z.of_nat (length l) + -1) 0)) with (length l - 1) by lia.
  apply delete_last.
Qed.

Section Components.
Context `{Ext : External}.

Lemma addComponents_step_old e c s x :
  entities s !! e = Some x -> c ∈ components x -> Bframe.addComponents_step e c s = Ok tt s.
Proof.
  intros Ex Hc. unfold Bframe.addComponents_step, bind. rewrite (get_entity_Some e s x Ex).
  destruct (decide (Js.indexOf c (components x) = (-1)%Z)) as [Hi|Hi]; [|done].
  by apply indexOf_notin in Hi.
Qed.

Lemma addComponents_attached e cs s x :
  entities s !! e = Some x -> Forall (fun c => c ∈ components x) cs ->
  Bframe.addComponents e cs s = Ok e s.
Proof.
  intros Ex Hall. unfold Bframe.addComponents.
  unfold bind at 1. rewrite (get_entity_Some e s x Ex).
  assert (Js.forEach_list cs (Bframe.addComponents_step e) s = Ok tt s) as Hl.
  { induction Hall as [|c cs Hc _ IH]; simpl; [done|].
    unfold bind. by rewrite (addComponents_step_old e c s x Ex Hc). }
  unfold bind. by rewrite Hl.
Qed.

Lemma addComponents_loop_unmounted e cs s x :
  entities s !! e = Some x -> isMounted x = false ->
  Js.forEach_list cs (Bframe.addComponents_step e) s
  = Ok tt (with_entities (alter (set_components (add_new cs (components x))) e (entities s)) s).
Proof.
  revert s x. induction cs as [|c cs IH]; intros s x Ex Hm; simpl.
  - unfold ret. f_equal.
    rewrite (alter_fixed _ _ e x Ex (set_components_same x)).
    by rewrite with_entities_same.
  - destruct (decide (c ∈ components x)) as [Hin|Hin].
    + unfold bind. rewrite (addComponents_step_old e c s x Ex Hin). by apply IH.
    + unfold bind at 1. unfold Bframe.addComponents_step at 1.
      unfold bind at 1. rewrite (get_entity_Some e s x Ex).
      rewrite decide_True by (by apply indexOf_notin).
      unfold bind at 1. unfold upd_entity at 1, modify at 1.
      set (s1 := with_entities _ s).
      assert (entities s1 !! e = Some (set_components (components x ++ [c]) x)) as E1.
      { subst s1. simpl. by rewrite list_lookup_alter_eq, Ex. }
      unfold bind at 1. rewrite (get_entity_Some e s1 _ E1). simpl. rewrite Hm. simpl.
      rewrite (IH s1 _ E1) by done. f_equal.
      subst s1. simpl. by rewrite alter_set_components_twice.
Qed.

Lemma mountComponent_quiet e c s x :
  quiet_method CDidMount ->
  entities s !! e = Some x -> is_Some (context x) -> is_Some (comps s !! c) ->
  exists s',
    Bframe._mountComponent e c s = Ok tt s' /\ calm s s' /\
    trace s' = trace s ++ [EvComponent CDidMount c].
Proof.
  intros Hq Ex [ctx Hctx] [cmp Hc]. unfold Bframe._mountComponent.
  unfold bind at 1. rewrite (get_entity_Some e s x Ex).
  unfold bind at 1. rewrite Hctx. simpl.
  unfold bind at 1. rewrite (get_comp_Some c s cmp Hc).
  unfold bind at 1. unfold upd_comp at 1, modify at 1.
  set (s1 := with_comps _ s).
  assert (calm s s1) as Hcalm1.
  { split; [done|]. intros c' [y Hy]. subst s1. simpl.
    destruct (decide (c = c')) as [<-|Hne].
    - rewrite list_lookup_alter_eq, Hy. eauto.
    - rewrite list_lookup_alter_ne by done. eauto. }
  destruct (chook_quiet CDidMount c s1 Hq) as (s' & E & Hcalm & Ht).
  { apply Hcalm1. eauto. }
  exists s'. split_and!; [done | by trans s1 | done].
Qed.

Lemma addComponents_loop_mounted e cs s x :
  quiet_method CDidMount ->
  entities s !! e = Some x -> isMounted x = true -> is_Some (context x) ->
  Forall (fun c => is_Some (comps s !! c)) cs ->
  exists s',
    Js.forEach_list cs (Bframe.addComponents_step e) s = Ok tt s' /\
    entities s' = alter (set_components (add_new cs (components x))) e (entities s) /\
    trace s' = trace s ++ map (EvComponent CDidMount) (newly_added cs (components x)).
Proof.
  intros Hq. revert s x.
  induction cs as [|c cs IH]; intros s x Ex Hm Hctx Hall; simpl.
  - exists s. split_and!; [done | |].
    + by rewrite (alter_fixed _ _ e x Ex (set_components_same x)).
    + unfold newly_added. simpl. by rewrite drop_all, app_nil_r.
  - apply Forall_cons in Hall as [Hc Hall].
    destruct (decide (c ∈ components x)) as [Hin|Hin].
    + unfold bind. rewrite (addComponents_step_old e c s x Ex Hin).
      rewrite (newly_added_cons_old c cs _ Hin). by apply IH.
    + unfold bind at 1. unfold Bframe.addComponents_step at 1.
      unfold bind at 1. rewrite (get_entity_Some e s x Ex).
      rewrite decide_True by (by apply indexOf_notin).
      unfold bind at 1. unfold upd_entity at 1, modify at 1.
      set (s1 := with_entities _ s).
      set (x1 := set_components (components x ++ [c]) x).
      assert (entities s1 !! e = Some x1) as E1.
      { subst s1 x1. simpl. by rewrite list_lookup_alter_eq, Ex. }
      unfold bind at 1. rewrite (get_entity_Some e s1 _ E1).
      assert (isMounted x1 = true) as -> by done. simpl.
      destruct (mountComponent_quiet e c s1 x1 Hq E1 Hctx Hc) as (s2 & E2 & [Hents Halloc] & Ht2).
      rewrite E2.
      destruct (IH s2 x1) as (s' & E' & Hents' & Ht'); [by rewrite Hents | done | done | |].
      { eapply Forall_impl; [exact Hall|]. intros c' Hc'. by apply Halloc. }
      exists s'. split_and!; [done | |].
      * rewrite Hents', Hents. subst s1 x1. simpl. by rewrite alter_set_components_twice.
      * rewrite Ht', Ht2, (newly_added_cons_new c cs _ Hin). subst s1 x1. simpl.
        by rewrite <- app_assoc.
Qed.

(** bframe's [addComponents] attaches the given components in order and
    skips every instance that is attached already (the test is
    [indexOf] on the instance, not on its class).  A batch of attached
    instances is a no-op: the call returns and the state is the one it
    started in.  On an entity that is not mounted the call returns,
    runs nothing and changes only the attached list.  On a mounted
    entity with a context, when every component given exists and
    [didMount] of a component returns, attaches or detaches nothing and
    makes no call of its own, the call returns and [didMount] has been
    called once for each instance that was attached by the call, in
    that order, and for no other.  In each case the attached list is the
    old one followed by the instances that were not attached, so it
    holds no instance twice if it did not before. *)
Theorem bframe_addComponents_dedups_instances :
  forall (s : State) (e : nat) (x : Entity) (cs : list nat),
    entities s !! e = Some x ->
    (Forall (fun c => c ∈ components x) cs -> Bframe.addComponents e cs s = Ok e s) /\
    (isMounted x = false ->
     Bframe.addComponents e cs s
     = Ok e (with_entities
               (alter (set_components (add_new cs (components x))) e (entities s)) s)) /\
    (isMounted x = true -> is_Some (context x) -> quiet_method CDidMount ->
     Forall (fun c => is_Some (comps s !! c)) cs ->
     exists s',
       Bframe.addComponents e cs s = Ok e s' /\
       entities s' = alter (set_components (add_new cs (components x))) e (entities s) /\
       trace s' = trace s ++ map (EvComponent CDidMount) (newly_added cs (components x))) /\
    add_new cs (components x) = components x ++ newly_added cs (components x) /\
    (NoDup (components x) -> NoDup (add_new cs (components x))) /\
    (forall c, c ∈ add_new cs (components x) <-> c ∈ components x \/ c ∈ cs).
Proof.
  intros s e x cs Ex. split_and!.
  - by apply addComponents_attached.
  - intros Hm. unfold Bframe.addComponents.
    unfold bind at 1. rewrite (get_entity_Some e s x Ex).
    unfold bind at 1. by rewrite (addComponents_loop_unmounted e cs s x Ex Hm).
  - intros Hm Hctx Hq Hall.
    destruct (addComponents_loop_mounted e cs s x Hq Ex Hm Hctx Hall) as (s' & E & H1 & H2).
    exists s'. split; [|done]. unfold Bframe.addComponents.
    unfold bind at 1. rewrite (get_entity_Some e s x Ex).
    unfold bind at 1. by rewrite E.
  - apply add_new_split.
  - apply add_new_NoDup.
  - intros c. apply add_new_elem_of.
Qed.

(** bframe's [removeComponent] first splices the attached list at
    [indexOf(component)] and then calls the component's [unmount].  An
    attached component is taken out at its first position, the others
    keep their order; for a component that is not attached the index is
    -1 and [splice(-1, 1)] takes out the last attached component
    instead.  For a component that is [undefined] the call throws a
    [TypeError] after the splice; otherwise [unmount] is called once, on
    the state with the spliced list, and its outcome is the outcome of
    the call. *)
Theorem bframe_removeComponent_effect :
  forall (s : State) (e : nat) (x : Entity) (c : nat),
    entities s !! e = Some x ->
    let spliced := Js.splice1 (Js.indexOf c (components x)) (components x) in
    let s1 := with_entities (alter (set_components spliced) e (entities s)) s in
    (forall n, components x !! n = Some c ->
               (forall j, j < n -> components x !! j <> Some c) ->
               spliced = delete n (components x)) /\
    (c ∉ components x -> spliced = take (length (components x) - 1) (components x)) /\
    (comps s !! c = None -> Bframe.removeComponent e c s = Throw TypeError s1) /\
    (is_Some (comps s !! c) ->
     Bframe.removeComponent e c s
     = bind (component_method CUnmount c) (fun _ => ret e)
         (with_trace (trace s ++ [EvComponent CUnmount c]) s1)).
Proof.
  intros s e x c Ex spliced s1.
  assert (forall A (k : M State A),
             bind (get_entity e)
               (fun this =>
                  bind (upd_entity e
                          (fun y => set_components
                                      (Js.splice1 (Js.indexOf c (components this)) (components y))
                                      y))
                    (fun _ => k)) s = k s1) as Hrun.
  { intros A k. unfold bind at 1. rewrite (get_entity_Some e s x Ex).
    unfold bind at 1. unfold upd_entity, modify. f_equal. subst s1. f_equal.
    by apply (alter_at _ _ _ e x Ex). }
  split_and!.
  - intros n Hn Hfirst.
    destruct (indexOf_in c (components x)) as (m & Hm & Hmf & E);
      [by eapply list_elem_of_lookup_2|].
    assert (m = n) as ->.
    { destruct (Nat.lt_trichotomy m n) as [Hlt|[->|Hlt]]; [|done|].
      - by destruct (Hfirst m Hlt).
      - by destruct (Hmf n Hlt). }
    subst spliced. rewrite E. apply splice1_nat. apply lookup_lt_Some in Hn. lia.
  - intros Hn. apply indexOf_notin in Hn. subst spliced. rewrite Hn. apply splice1_minus_one.
  - intros Hc. unfold Bframe.removeComponent. rewrite Hrun.
    assert (chook CUnmount c s1 = Throw TypeError s1) as Hch.
    { unfold chook, bind, get_comp. subst s1. simpl. by rewrite Hc. }
    unfold bind. by rewrite Hch.
  - intros [cmp Hc]. unfold Bframe.removeComponent. rewrite Hrun.
    unfold chook, call_component.
    unfold bind at 1. unfold bind at 1.
    assert (comps s1 !! c = Some cmp) as Hc1 by done.
    rewrite (get_comp_Some c s1 cmp Hc1). unfold bind at 1. done.
Qed.

End Components.

(** * Concrete runs *)

(** An application whose components, callbacks and absent classes do
    nothing, and one whose components throw in every method. *)
Definition quiet : External :=
  mkExternal (fun _ _ => ret tt) (fun _ => ret tt) (fun _ => ret tt) (fun _ => ret tt)
             (fun v => v) (fun v => v).

Definition throwing : External :=
  mkExternal (fun _ _ => throw (JsError "component failed")) (fun _ => ret tt)
             (fun _ => ret tt) (fun _ => ret tt) (fun v => v) (fun v => v).

Lemma quiet_is_quiet h : quiet_method (Ext := quiet) h.
Proof. intros c s. exists s. done. Qed.

Lemma throwing_settles h : settling_method (Ext := throwing) h.
Proof. intros c s. exists s. done. Qed.

Definition ctxA : Context := mkContext 0 0 0.
Definition ctxB : Context := mkContext 0 1 1.

(** The entity at [e], for a heap that has one there. *)
Definition entity_at (s : State) (e : nat) : Entity :=
  default (mkEntity None None false None 0 None None None [] [] None false) (entities s !! e).

Lemma entity_at_lookup s e : e < length (entities s) -> entities s !! e = Some (entity_at s e).
Proof.
  intros H. unfold entity_at. destruct (entities s !! e) eqn:E; [done|].
  apply lookup_ge_None in E. lia.
Qed.

(** Every component below [n] exists. *)
Lemma allocated_below s (cs : list nat) :
  forallb (fun c => c <? length (comps s)) cs = true ->
  Forall (fun c => is_Some (comps s !! c)) cs.
Proof.
  intros H. apply Forall_forall. intros c Hc. apply lookup_lt_is_Some.
  rewrite forallb_forall in H. apply Nat.ltb_lt. apply H. by apply list_elem_of_In.
Qed.

Section QuietRuns.
#[local] Existing Instance quiet.

(** A mounted nucleus entity with three components, the second one
    switched off. *)
Definition disabled_component_state : State :=
  Eval vm_compute in
    exec (e <- Nucleus.construct None None ;;
          c0 <- alloc_component (mkComponent "Spin" false true None) ;;
          c1 <- alloc_component (mkComponent "Glow" false false None) ;;
          c2 <- alloc_component (mkComponent "Move" false true None) ;;
          Nucleus._mount 1 e (Some ctxA) None ;;
          Nucleus.mountComponents e [c0; c1; c2]) empty_state.

(** C8, as stated, fails on the nucleus entity: the per-frame callback
    of a mounted entity skips an attached component whose [isEnabled] is
    false. *)
Lemma C8_disabled_component_not_updated :
  isMounted (entity_at disabled_component_state 0) = true /\
  components (entity_at disabled_component_state 0) = [0; 1; 2] /\
  exists s',
    Nucleus._onBeforeRender 0 disabled_component_state = Ok tt s' /\
    EvComponent COnUpdate 1 ∉ trace s'.
Proof.
  split; [vm_compute; reflexivity|]. split; [vm_compute; reflexivity|].
  exists (exec (Nucleus._onBeforeRender 0) disabled_component_state).
  split; [vm_compute; reflexivity|].
  apply (bool_decide_unpack _). vm_compute. reflexivity.
Qed.

(** A mounted bframe entity with two components and a [position]
    prop. *)
Definition two_components_state : State :=
  Eval vm_compute in
    exec (pos <- alloc_obj {[ "x" := VNum 3 ]} ;;
          p <- alloc_obj {[ "position" := VRef pos ]} ;;
          e <- Bframe.construct (Some p) None false ;;
          c1 <- alloc_component (mkComponent "Spin" false true None) ;;
          c2 <- alloc_component (mkComponent "Glow" false true None) ;;
          Bframe._mount 1 e (Some ctxA) None ;;
          Bframe.addComponents e [c2; c1]) empty_state.

(** An unmounted bframe entity that carries component 1. *)
Definition one_component_state : State :=
  Eval vm_compute in
    exec (e <- Bframe.construct None None false ;;
          c1 <- alloc_component (mkComponent "Spin" false true None) ;;
          c2 <- alloc_component (mkComponent "Spin" false true None) ;;
          Bframe.addComponents e [c2]) empty_state.

End QuietRuns.

Lemma C8_per_frame_order_witness :
  (exists s',
      final (Bframe._onBeforeRender (Ext := quiet) 0 two_components_state) = Some s' /\
      trace s' = trace two_components_state
                 ++ map (EvComponent CTick) (components (entity_at two_components_state 0))
                 ++ [EvEntity HTick 0]) /\
  (exists s' evs,
      Nucleus._onBeforeRender (Ext := throwing) 0 disabled_component_state = Ok tt s' /\
      trace s' = trace disabled_component_state ++ evs /\
      filter not_console evs
      = map (EvComponent COnUpdate)
            (filter (fun c => Nucleus.enabled disabled_component_state c = true)
                    (components (entity_at disabled_component_state 0)))
        ++ [EvEntity HOnUpdate 0]) /\
  components (entity_at two_components_state 0) = [1; 0] /\
  filter (fun c => Nucleus.enabled disabled_component_state c = true)
         (components (entity_at disabled_component_state 0)) = [0; 2].
Proof.
  split; [|split; [|split; vm_compute; reflexivity]].
  - destruct (C8_per_frame_order (Ext := quiet)) as [Hb _].
    apply (Hb (quiet_is_quiet CTick) two_components_state 0
              (entity_at two_components_state 0)).
    + apply entity_at_lookup. vm_compute. lia.
    + vm_compute. reflexivity.
    + apply allocated_below. vm_compute. reflexivity.
  - destruct (C8_per_frame_order (Ext := throwing)) as [_ Hn].
    apply (Hn (throwing_settles COnUpdate) disabled_component_state 0
              (entity_at disabled_component_state 0)).
    + apply entity_at_lookup. vm_compute. lia.
    + vm_compute. reflexivity.
    + apply allocated_below. vm_compute. reflexivity.
Defined.

Lemma bframe_addComponents_dedups_instances_witness :
  entities two_components_state !! 0 = Some (entity_at two_components_state 0) /\
  components (entity_at two_components_state 0) = [1; 0] /\
  Bframe.addComponents (Ext := quiet) 0 [0; 1; 0] two_components_state
  = Ok 0 two_components_state /\
  components (entity_at one_component_state 0) = [1] /\
  Bframe.addComponents (Ext := quiet) 0 [0; 1; 0] one_component_state
  = Ok 0 (with_entities
            (alter (set_components [1; 0]) 0 (entities one_component_state))
            one_component_state).
Proof.
  assert (entities two_components_state !! 0 = Some (entity_at two_components_state 0)) as E2
    by (apply entity_at_lookup; vm_compute; lia).
  assert (entities one_component_state !! 0 = Some (entity_at one_component_state 0)) as E1
    by (apply entity_at_lookup; vm_compute; lia).
  split; [exact E2|]. split; [vm_compute; reflexivity|].
  split; [|split; [vm_compute; reflexivity|]].
  - destruct (bframe_addComponents_dedups_instances (Ext := quiet)
                two_components_state 0 _ [0; 1; 0] E2) as (Hnoop & _).
    apply Hnoop. apply (bool_decide_unpack _). vm_compute. reflexivity.
  - destruct (bframe_addComponents_dedups_instances (Ext := quiet)
                one_component_state 0 _ [0; 1; 0] E1) as (_ & Hun & _).
    apply Hun. vm_compute. reflexivity.
Defined.

Lemma bframe_removeComponent_effect_witness :
  entities two_components_state !! 0 = Some (entity_at two_components_state 0) /\
  components (entity_at two_components_state 0) = [1; 0] /\
  comps two_components_state !! 5 = None /\
  Bframe.removeComponent (Ext := quiet) 0 5 two_components_state
  = Throw TypeError
      (with_entities (alter (set_components [1]) 0 (entities two_components_state))
         two_components_state) /\
  Bframe.removeComponent (Ext := throwing) 0 1 two_components_state
  = Throw (JsError "component failed")
      (with_trace (trace two_components_state ++ [EvComponent CUnmount 1])
         (with_entities (alter (set_components [0]) 0 (entities two_components_state))
            two_components_state)).
Proof.
  assert (entities two_components_state !! 0 = Some (entity_at two_components_state 0)) as E2
    by (apply entity_at_lookup; vm_compute; lia).
  split; [exact E2|]. split; [vm_compute; reflexivity|]. split; [vm_compute; reflexivity|].
  split.
  - destruct (bframe_removeComponent_effect (Ext := quiet)
                two_components_state 0 _ 5 E2) as (_ & _ & Hundef & _).
    apply Hundef. vm_compute. reflexivity.
  - destruct (bframe_removeComponent_effect (Ext := throwing)
                two_components_state 0 _ 1 E2) as (_ & _ & _ & Hdef).
    rewrite Hdef; [reflexivity|]. apply lookup_lt_is_Some. vm_compute. lia.
Defined.

(** * Walks over the entity graph *)

Lemma bind_assoc {St A B C} (m : M St A) (k : A -> M St B) (k' : B -> M St C) s :
  bind (bind m k) k' s = bind m (fun a => bind (k a) k') s.
Proof. unfold bind. by destruct (m s). Qed.

Lemma bind_ext {St A B} (m : M St A) (k k' : A -> M St B) s :
  (forall a s1, k a s1 = k' a s1) -> bind m k s = bind m k' s.
Proof. intros H. unfold bind. by destruct (m s). Qed.

Lemma preserves_ext {St A} (R : St -> St -> Prop) (m m' : M St A) :
  (forall s, m s = m' s) -> preserves R m' -> preserves R m.
Proof. intros H Hm s s'. rewrite H. apply Hm. Qed.

(** Whatever the code outside the repository does, it keeps [R]. *)
Definition external_preserves `{Ext : External} (R : State -> State -> Prop) : Prop :=
  (forall h c, preserves R (component_method h c)) /\
  (forall e, preserves R (ref_callback e)) /\
  (forall ev, preserves R (absent_method ev)) /\
  (forall n, preserves R (engine_dispose n)).

Lemma entity_rel_get_upd P `{!Reflexive P} p (F : Entity -> Entity -> Entity) :
  (forall x, P x (F x x)) ->
  preserves (entity_rel P) (bind (get_entity p) (fun pe => upd_entity p (F pe))).
Proof.
  intros HF s s'. unfold bind, get_entity.
  destruct (entities s !! p) as [pe|] eqn:E; simpl; intros [= <-].
  - intros i x Hx. simpl. destruct (decide (i = p)) as [->|Hne].
    + exists (F pe pe). rewrite list_lookup_alter_eq, E. split; [done|].
      rewrite E in Hx. injection Hx as <-. apply HF.
    + exists x. by rewrite list_lookup_alter_ne.
  - apply (entity_rel_refl P s).
Qed.

(** ** bframe's [unmount] in three parts *)

Section UnmountParts.
Context `{Ext : External}.

(** The components are unmounted and the observer is removed. *)
Definition release (e : EntityId) : M State unit :=
  Js.forEach (components_of e) (chook CUnmount) ;;
  this <- get_entity e ;;
  ctx <- defined (context this) ;;
  Host.observable_remove (ctx_scene ctx) (obs this) ;;
  upd_entity e (set_obs None).

(** The node is disposed and the entity marked as not mounted. *)
Definition destroy (e : EntityId) : M State unit :=
  this <- get_entity e ;;
  n <- defined (node this) ;;
  Host.dispose n ;;
  upd_entity e (set_node None) ;;
  upd_entity e (set_isMounted false).

(** [this.parent.onChildrenUpdated()] *)
Definition notify_parent (e : EntityId) : M State unit :=
  this <- get_entity e ;;
  p <- defined (parent this) ;;
  get_entity p ;;
  hook HChildrenUpdated p.

Lemma unmount_self_split e s :
  Bframe.unmount_self e s
  = bind (release e) (fun _ => bind (destroy e) (fun _ => notify_parent e)) s.
Proof.
  unfold Bframe.unmount_self, release, destroy, notify_parent.
  repeat (rewrite ?bind_assoc; apply bind_ext; intros ? ?).
  reflexivity.
Qed.

Lemma notify_parent_keeps_entities e : preserves (keeps entities) (notify_parent e).
Proof. unfold notify_parent. frame. Qed.

Lemma notify_parent_Ok e s s' :
  notify_parent e s = Ok tt s' ->
  exists x p, entities s !! e = Some x /\ parent x = Some p /\
              s' = with_trace (trace s ++ [EvEntity HChildrenUpdated p]) s.
Proof.
  unfold notify_parent. intros H.
  bind_inv H as this s1 E1. prim_inv.
  bind_inv H as p s2 E2. prim_inv.
  bind_inv H as y s3 E3. prim_inv. eauto.
Qed.






End UnmountParts.

Section Walks.
Context `{Ext : External}.
Context (P : Entity -> Entity -> Prop) `{!Reflexive P} `{!Transitive P}.
Hypothesis P_external : external_preserves (entity_rel P).

Lemma chook_walk h c : preserves (entity_rel P) (chook h c).
Proof.
  destruct P_external as (Hc & _).
  unfold chook, call_component.
  apply preserves_bind; [apply _ | | intros _].
  { apply entity_rel_of_keeps; [apply _|]. frame. }
  apply preserves_bind; [apply _ | | intros _; apply Hc].
  apply entity_rel_of_keeps; [apply _|]. frame.
Qed.

Lemma call_absent_walk ev : preserves (entity_rel P) (call_absent ev).
Proof.
  destruct P_external as (_ & _ & Ha & _).
  unfold call_absent.
  apply preserves_bind; [apply _ | | intros _; apply Ha].
  apply entity_rel_of_keeps; [apply _|]. frame.
Qed.

Lemma dispose_walk n : preserves (entity_rel P) (Host.dispose n).
Proof.
  destruct P_external as (_ & _ & _ & Hd).
  unfold Host.dispose.
  apply preserves_bind; [apply _ | | intros _].
  { apply entity_rel_of_keeps; [apply _|]. frame. }
  apply preserves_bind; [apply _ | | intros _; apply Hd].
  apply entity_rel_of_keeps; [apply _|]. frame.
Qed.

Hypothesis P_obs : forall v x, P x (set_obs v x).
Hypothesis P_disposeObs : forall v x, P x (set_disposeObs v x).
Hypothesis P_unmounted : forall x, P x (set_isMounted false x).
Hypothesis P_no_node : forall x, P x (set_node None x).
Hypothesis P_splice : forall i x, P x (set_children (Js.splice1 i (children x)) x).

(** Closes [preserves (entity_rel P) m] for [m] built from the steps of
    the two [unmount]s. *)
Ltac walk :=
  repeat first
    [ progress intros
    | apply chook_walk
    | apply call_absent_walk
    | apply dispose_walk
    | apply entity_rel_get_upd; [apply _ | by auto]
    | apply entity_rel_upd; [apply _ | by auto]
    | apply preserves_bind; [apply _ | |]
    | apply preserves_when; [apply _ |]
    | apply preserves_forEach; [apply _ | apply _ |]
    | apply preserves_ret; apply _
    | apply preserves_throw; apply _
    | apply preserves_defined; apply _
    | match goal with
      | |- preserves _ (match ?x with _ => _ end) => destruct x
      end
    | apply entity_rel_of_keeps; [apply _|]; frame ].

Lemma release_walk e : preserves (entity_rel P) (release e).
Proof. unfold release, Host.observable_remove. walk. Qed.

Lemma destroy_walk e : preserves (entity_rel P) (destroy e).
Proof. unfold destroy. walk. Qed.

Lemma bframe_unmount_self_walk e : preserves (entity_rel P) (Bframe.unmount_self e).
Proof.
  eapply preserves_ext; [apply unmount_self_split|].
  apply preserves_bind; [apply _ | apply release_walk | intros _].
  apply preserves_bind; [apply _ | apply destroy_walk | intros _].
  apply entity_rel_of_keeps; [apply _|]. apply notify_parent_keeps_entities.
Qed.

Lemma bframe_unmount_walk fuel e : preserves (entity_rel P) (Bframe.unmount fuel e).
Proof.
  revert e. induction fuel as [|fuel IH]; intros e; simpl.
  - apply preserves_diverge.
  - apply preserves_bind; [apply _ | walk | intros _].
    apply preserves_bind; [apply _ | walk | intros _].
    apply preserves_bind; [apply _ | | intros _].
    { apply preserves_forEach; [apply _ | apply _ |]. intros c. apply IH. }
    apply bframe_unmount_self_walk.
Qed.






(** ** Mounting *)

Hypothesis P_context : forall v x, P x (set_context v x).
Hypothesis P_node : forall v x, P x (set_node v x).
Hypothesis P_mounted : forall v x, P x (set_isMounted v x).
Hypothesis P_childContext : forall v x, P x (set_childContext v x).















End Walks.

(** * bframe: [unmount] needs a parent (C9) *)

(** The two entities have the same parent link. *)
Definition same_parent (x y : Entity) : Prop := parent y = parent x.

#[global] Instance same_parent_refl : Reflexive same_parent.
Proof. by intros x. Qed.
#[global] Instance same_parent_trans : Transitive same_parent.
Proof. intros x y z H1 H2. unfold same_parent in *. congruence. Qed.

Section UnmountParent.
Context `{Ext : External}.

(** The method [h] of every component does nothing. *)
Definition still_method (h : ComponentHook) : Prop :=
  forall c s, component_method h c s = Ok tt s.

(** Disposing a node has no effect besides marking it. *)
Definition still_engine : Prop := forall n s, engine_dispose n s = Ok tt s.

Lemma unmount_Ok_final fuel e s s' :
  Bframe.unmount fuel e s = Ok tt s' ->
  exists x' p, entities s' !! e = Some x' /\ parent x' = Some p /\
               last (trace s') = Some (EvEntity HChildrenUpdated p).
Proof.
  intros H. destruct fuel as [|fuel]; [discriminate|]. simpl in H.
  bind_inv H as this s1 E1.
  bind_inv H as u2 s2 E2.
  bind_inv H as u3 s3 E3.
  rewrite unmount_self_split in H.
  bind_inv H as u4 s4 E4.
  bind_inv H as u5 s5 E5.
  apply notify_parent_Ok in H as (x5 & p & Ex5 & Hp & ->).
  exists x5, p. simpl. by rewrite last_snoc.
Qed.

Lemma unmount_Ok_parent fuel e s s' x :
  external_preserves (entity_rel same_parent) ->
  entities s !! e = Some x ->
  Bframe.unmount fuel e s = Ok tt s' ->
  is_Some (parent x).
Proof.
  intros Hk Ex H.
  pose proof (bframe_unmount_walk same_parent Hk
                (fun _ _ => eq_refl) (fun _ => eq_refl) (fun _ => eq_refl) fuel e) as Hwalk.
  destruct (unmount_Ok_final fuel e s s' H) as (x' & p & Ex' & Hp & _).
  destruct (preserves_Ok _ _ _ _ _ Hwalk H e x Ex) as (y & Ey & Hsame).
  rewrite Ex' in Ey. injection Ey as <-. unfold same_parent in Hsame.
  rewrite <- Hsame, Hp. by eexists.
Qed.

Lemma forEach_from_chook_still h e todo k s :
  still_method h ->
  Forall (fun c => is_Some (comps s !! c)) (components_of e s) ->
  Js.forEach_from (components_of e) (chook h) todo k s
  = Ok tt (with_trace
             (trace s ++ map (EvComponent h) (take todo (drop k (components_of e s)))) s).
Proof.
  intros Hs. revert k s. induction todo as [|todo IH]; intros k s Hall; simpl.
  - rewrite app_nil_r. by destruct s.
  - destruct (components_of e s !! k) as [c|] eqn:Ek.
    + assert (is_Some (comps s !! c)) as [cmp Hc].
      { rewrite Forall_forall in Hall. apply Hall. by eapply list_elem_of_lookup_2. }
      unfold bind at 1. unfold chook, call_component. unfold bind at 1.
      rewrite (get_comp_Some c s cmp Hc). unfold bind at 1. unfold log at 1, modify at 1.
      rewrite Hs. rewrite IH by done.
      rewrite (take_drop_step _ _ _ _ Ek). simpl. unfold with_trace. simpl.
      by rewrite <- app_assoc.
    + rewrite IH by done.
      rewrite (take_drop_none _ _ _ Ek), (take_drop_none _ (S k) todo); [done|].
      apply lookup_ge_None. apply lookup_ge_None in Ek. lia.
Qed.

Lemma forEach_chook_still h e s :
  still_method h ->
  Forall (fun c => is_Some (comps s !! c)) (components_of e s) ->
  Js.forEach (components_of e) (chook h) s
  = Ok tt (with_trace (trace s ++ map (EvComponent h) (components_of e s)) s).
Proof.
  intros Hs Hall. unfold Js.forEach.
  rewrite (forEach_from_chook_still h e _ 0 s Hs Hall). by rewrite drop_0, firstn_all.
Qed.

(** The observers after [remove(o)] on the scene. *)
Definition observers_without (scene : SceneId) (o : option ObsId) (s : State) : list Observer :=
  match o with
  | Some o => Host.remove_first scene o (observers s)
  | None => observers s
  end.

(** The state in which [unmount] of a mounted entity without children
    reads the parent, when the [unmount] of its components and the
    engine do nothing more. *)
Definition torn_down (e : EntityId) (x : Entity) (ctx : Context) (n : NodeId) (s : State)
  : State :=
  mkState (alter (fun y => set_isMounted false (set_node None (set_obs None y))) e (entities s))
          (comps s)
          (alter (set_disposed true) n (nodes s))
          (observers_without (ctx_scene ctx) (obs x) s)
          (next_obs s)
          (store s)
          (trace s ++ [EvEntity HWillUnmount e] ++ map (EvComponent CUnmount) (components x)).

Lemma unmount_leaf_teardown fuel e s x ctx n :
  still_method CUnmount -> still_engine ->
  entities s !! e = Some x -> children x = [] ->
  context x = Some ctx -> node x = Some n -> is_Some (nodes s !! n) ->
  Forall (fun c => is_Some (comps s !! c)) (components x) ->
  Bframe.unmount (S fuel) e s = notify_parent e (torn_down e x ctx n s).
Proof.
  intros Hs He Ex Hch Hctx Hn [nd Hnd] Hall. simpl.
  unfold bind at 1. rewrite (get_entity_Some e s x Ex).
  unfold bind at 1. unfold hook at 1, log at 1, modify at 1.
  set (s1 := with_trace _ s).
  assert (entities s1 !! e = Some x) as Ex1 by done.
  unfold bind at 1. unfold Js.forEach at 1.
  rewrite (children_of_lookup e s1 x Ex1), Hch. simpl.
  rewrite unmount_self_split. unfold bind at 1.
  assert (release e s1
          = Ok tt (with_entities (alter (set_obs None) e (entities s))
                     (with_observers (observers_without (ctx_scene ctx) (obs x) s) (next_obs s)
                        (with_trace (trace s1 ++ map (EvComponent CUnmount) (components x))
                           s1)))) as ->.
  { unfold release. unfold bind at 1.
    rewrite (forEach_chook_still CUnmount e s1 Hs)
      by (by rewrite (components_of_lookup e s1 x Ex1)).
    rewrite (components_of_lookup e s1 x Ex1).
    set (s2 := with_trace _ s1).
    assert (entities s2 !! e = Some x) as Ex2 by done.
    unfold bind at 1. rewrite (get_entity_Some e s2 x Ex2).
    unfold bind at 1. rewrite Hctx. simpl.
    unfold bind at 1.
    assert (Host.observable_remove (ctx_scene ctx) (obs x) s2
            = Ok tt (with_observers (observers_without (ctx_scene ctx) (obs x) s)
                       (next_obs s) s2))
      as -> by (unfold Host.observable_remove, observers_without; by destruct (obs x)).
    done. }
  set (s3 := with_entities _ _).
  assert (entities s3 !! e = Some (set_obs None x)) as Ex3.
  { subst s3. simpl. by rewrite list_lookup_alter_eq, Ex. }
  unfold bind at 1.
  assert (destroy e s3 = Ok tt (torn_down e x ctx n s)) as ->; [|done].
  unfold destroy. unfold bind at 1. rewrite (get_entity_Some e s3 _ Ex3).
  unfold bind at 1. assert (node (set_obs None x) = Some n) as -> by done. simpl.
  unfold bind at 1. unfold Host.dispose. unfold bind at 1.
  rewrite (get_node_Some n s3 nd) by done.
  unfold bind at 1. unfold upd_node at 1, modify at 1. rewrite He.
  unfold upd_entity, modify, bind. f_equal.
  unfold torn_down. subst s3 s1. unfold with_entities, with_nodes. simpl. f_equal.
  - by rewrite !list_alter_alter_eq.
  - by rewrite <- app_assoc.
Qed.

Lemma torn_down_lookup e x ctx n s :
  entities s !! e = Some x ->
  entities (torn_down e x ctx n s) !! e
  = Some (set_isMounted false (set_node None (set_obs None x))).
Proof. intros Ex. unfold torn_down. simpl. by rewrite list_lookup_alter_eq, Ex. Qed.

(** C9: bframe's [unmount] reads the parent unconditionally, at its
    end, to call its [onChildrenUpdated].  Whenever [unmount] returns,
    the entity has a parent and that call was the last one made.
    Provided the code outside the repository changes no parent link,
    the [unmount] of an entity without parent never returns.  For a
    mounted entity without children, when the [unmount] of its
    components does nothing and the engine does no more than mark the
    node, the outcome is exact: the components have been unmounted, the
    observer removed, the node disposed and the entity marked as not
    mounted, and then the call throws a [TypeError] when there is no
    parent, and calls the parent's [onChildrenUpdated] and returns when
    there is one. *)
Theorem C9_bframe_unmount_needs_parent :
  (forall fuel s e s',
     Bframe.unmount fuel e s = Ok tt s' ->
     exists x' p, entities s' !! e = Some x' /\ parent x' = Some p /\
                  last (trace s') = Some (EvEntity HChildrenUpdated p)) /\
  (external_preserves (entity_rel same_parent) ->
   forall fuel s e x s',
     entities s !! e = Some x -> parent x = None ->
     Bframe.unmount fuel e s <> Ok tt s') /\
  (still_method CUnmount -> still_engine ->
   forall fuel s e x ctx n,
     entities s !! e = Some x -> children x = [] ->
     context x = Some ctx -> node x = Some n -> is_Some (nodes s !! n) ->
     Forall (fun c => is_Some (comps s !! c)) (components x) ->
     (parent x = None ->
      Bframe.unmount (S fuel) e s = Throw TypeError (torn_down e x ctx n s)) /\
     (forall p, parent x = Some p -> is_Some (entities s !! p) ->
      Bframe.unmount (S fuel) e s
      = Ok tt (with_trace (trace (torn_down e x ctx n s) ++ [EvEntity HChildrenUpdated p])
                 (torn_down e x ctx n s)))).
Proof.
  split; [|split].
  - intros fuel s e s'. apply unmount_Ok_final.
  - intros Hk fuel s e x s' Ex Hp H.
    destruct (unmount_Ok_parent fuel e s s' x Hk Ex H) as [p Hp']. congruence.
  - intros Hs He fuel s e x ctx n Ex Hch Hctx Hn Hnd Hall.
    rewrite (unmount_leaf_teardown fuel e s x ctx n Hs He Ex Hch Hctx Hn Hnd Hall).
    pose proof (torn_down_lookup e x ctx n s Ex) as Et.
    split.
    + intros Hp. unfold notify_parent. unfold bind at 1.
      rewrite (get_entity_Some _ _ _ Et). unfold bind at 1.
      assert (parent (set_isMounted false (set_node None (set_obs None x))) = None) as ->
        by done.
      done.
    + intros p Hp [y Hy]. unfold notify_parent. unfold bind at 1.
      rewrite (get_entity_Some _ _ _ Et). unfold bind at 1.
      assert (parent (set_isMounted false (set_node None (set_obs None x))) = Some p) as ->
        by done.
      simpl. unfold bind at 1.
      destruct (decide (p = e)) as [->|Hne].
      * by rewrite (get_entity_Some _ _ _ Et).
      * assert (entities (torn_down e x ctx n s) !! p = Some y) as Ey.
        { unfold torn_down. simpl. by rewrite list_lookup_alter_ne. }
        by rewrite (get_entity_Some _ _ _ Ey).
Qed.

End UnmountParent.

Section QuietTrees.
#[local] Existing Instance quiet.

(** A mounted bframe parent (entity 0) with one mounted child
    (entity 1) that carries a component. *)
Definition parent_child_state : State :=
  Eval vm_compute in
    exec (p <- Bframe.construct None None false ;;
          c <- Bframe.construct None None false ;;
          k <- alloc_component (mkComponent "Spin" false true None) ;;
          Bframe.addComponents c [k] ;;
          Bframe._mount 2 p (Some ctxA) None ;;
          Bframe.mountChild 2 p c) empty_state.

End QuietTrees.

Lemma quiet_is_still h : still_method (Ext := quiet) h.
Proof. by intros c s. Qed.

Lemma quiet_engine_is_still : still_engine (Ext := quiet).
Proof. by intros n s. Qed.

Lemma quiet_preserves (R : State -> State -> Prop) `{!Reflexive R} :
  external_preserves (Ext := quiet) R.
Proof. repeat split; intros; intros s s' [= <-]; reflexivity. Qed.

Lemma C9_bframe_unmount_needs_parent_witness :
  parent (entity_at two_components_state 0) = None /\
  isMounted (entity_at two_components_state 0) = true /\
  (forall fuel s', Bframe.unmount (Ext := quiet) fuel 0 two_components_state <> Ok tt s') /\
  (exists s',
      Bframe.unmount (Ext := quiet) 1 0 two_components_state = Throw TypeError s' /\
      isMounted (entity_at s' 0) = false /\
      node (entity_at s' 0) = None /\
      (disposed <$> nodes s' !! 0) = Some true /\
      observers s' = [] /\
      trace s' = trace two_components_state
                 ++ [EvEntity HWillUnmount 0; EvComponent CUnmount 1; EvComponent CUnmount 0]) /\
  parent (entity_at parent_child_state 1) = Some 0 /\
  (exists s',
      Bframe.unmount (Ext := quiet) 1 1 parent_child_state = Ok tt s' /\
      isMounted (entity_at s' 1) = false /\
      trace s' = trace parent_child_state
                 ++ [EvEntity HWillUnmount 1; EvComponent CUnmount 0;
                     EvEntity HChildrenUpdated 0]).
Proof.
  assert (entities two_components_state !! 0 = Some (entity_at two_components_state 0)) as E2
    by (apply entity_at_lookup; vm_compute; lia).
  assert (entities parent_child_state !! 1 = Some (entity_at parent_child_state 1)) as E1
    by (apply entity_at_lookup; vm_compute; lia).
  destruct (C9_bframe_unmount_needs_parent (Ext := quiet)) as (_ & HA & HB).
  split; [vm_compute; reflexivity|]. split; [vm_compute; reflexivity|].
  split; [|split; [|split; [vm_compute; reflexivity|]]].
  - intros fuel s'.
    apply (HA (quiet_preserves _) fuel two_components_state 0 _ s' E2).
    vm_compute. reflexivity.
  - destruct (HB (quiet_is_still CUnmount) quiet_engine_is_still
                0 two_components_state 0 _ ctxA 0 E2) as [Hroot _].
    + vm_compute. reflexivity.
    + vm_compute. reflexivity.
    + vm_compute. reflexivity.
    + apply lookup_lt_is_Some. vm_compute. lia.
    + apply allocated_below. vm_compute. reflexivity.
    + eexists. split; [apply Hroot; vm_compute; reflexivity|].
      repeat split; vm_compute; reflexivity.
  - destruct (HB (quiet_is_still CUnmount) quiet_engine_is_still
                0 parent_child_state 1 _ ctxA 1 E1) as [_ Hchild].
    + vm_compute. reflexivity.
    + vm_compute. reflexivity.
    + vm_compute. reflexivity.
    + apply lookup_lt_is_Some. vm_compute. lia.
    + apply allocated_below. vm_compute. reflexivity.
    + eexists. split; [apply (Hchild 0); [vm_compute; reflexivity|]|].
      * apply lookup_lt_is_Some. vm_compute. lia.
      * repeat split; vm_compute; reflexivity.
Defined.

(** * [unmount] disposes the node (C4) *)

(** Node by node, [Q] relates the heap before to the heap after; nodes
    may have been created. *)
Definition node_rel (Q : Node -> Node -> Prop) (s s' : State) : Prop :=
  forall n a, nodes s !! n = Some a -> exists b, nodes s' !! n = Some b /\ Q a b.

#[global] Instance node_rel_refl Q `{!Reflexive Q} : Reflexive (node_rel Q).
Proof. intros s n a E. by exists a. Qed.
#[global] Instance node_rel_trans Q `{!Transitive Q} : Transitive (node_rel Q).
Proof.
  intros a b c H1 H2 n x E.
  destruct (H1 n x E) as (y & Ey & Hxy). destruct (H2 n y Ey) as (z & Ez & Hyz).
  exists z. split; [done|]. by trans y.
Qed.


Lemma node_rel_upd Q `{!Reflexive Q} n f :
  (forall a, Q a (f a)) -> preserves (node_rel Q) (upd_node n f).
Proof.
  intros H. apply preserves_modify. intros s i a Ea. simpl.
  destruct (decide (i = n)) as [->|Hne].
  - exists (f a). by rewrite list_lookup_alter_eq, Ea.
  - exists a. by rewrite list_lookup_alter_ne.
Qed.

(** A node that was disposed is disposed. *)
Definition stays_disposed (a b : Node) : Prop := disposed a = true -> disposed b = true.

#[global] Instance stays_disposed_refl : Reflexive stays_disposed.
Proof. intros a H. exact H. Qed.
#[global] Instance stays_disposed_trans : Transitive stays_disposed.
Proof. intros a b c H1 H2 H. by apply H2, H1. Qed.

(** The entity has the node it had, or none. *)
Definition node_kept (x y : Entity) : Prop := node y = node x \/ node y = None.

#[global] Instance node_kept_refl : Reflexive node_kept.
Proof. intros x. by left. Qed.
#[global] Instance node_kept_trans : Transitive node_kept.
Proof.
  intros x y z [H1|H1] [H2|H2]; unfold node_kept; try (by right).
  - left. congruence.
  - right. congruence.
Qed.

(** The entity has the node and the mounted flag it had. *)
Definition same_mount (x y : Entity) : Prop :=
  node y = node x /\ isMounted y = isMounted x.

#[global] Instance same_mount_refl : Reflexive same_mount.
Proof. by intros x. Qed.
#[global] Instance same_mount_trans : Transitive same_mount.
Proof. intros x y z [H1 H2] [H3 H4]. split; congruence. Qed.



Section UnmountNode.
Context `{Ext : External}.
Hypothesis ext_mount : external_preserves (entity_rel same_mount).
Hypothesis ext_disposed : external_preserves (node_rel stays_disposed).










End UnmountNode.

Section QuietUnmounts.
#[local] Existing Instance quiet.



End QuietUnmounts.


(** * One component per kind (C3) *)

Lemma final_bind {St A B} (m : M St A) (k : A -> M St B) s s' :
  final (bind m k s) = Some s' ->
  (exists err, m s = Throw err s') \/
  (exists a s1, m s = Ok a s1 /\ final (k a s1) = Some s').
Proof.
  unfold bind. destruct (m s) as [a s1|err s1|] eqn:E; simpl.
  - intros H. right. eauto.
  - intros [= <-]. left. eauto.
  - discriminate.
Qed.

(** The kinds of the components attached to [e], in the order of
    attachment. *)
Definition kinds_of (e : EntityId) (s : State) : list (option string) :=
  map (Nucleus.kind_at s) (components_of e s).

(** No kind is attached twice to [e]. *)
Definition one_per_kind (e : EntityId) (s : State) : Prop := NoDup (kinds_of e s).

Lemma find_kind_None s name cs :
  Nucleus.find_kind s name cs = None -> Some name ∉ map (Nucleus.kind_at s) cs.
Proof.
  unfold Nucleus.find_kind. intros H.
  destruct (list_find _ cs) as [[i c]|] eqn:E; [discriminate|].
  apply list_find_None in E. rewrite Forall_forall in E.
  intros (c & Hc & Hin)%list_elem_of_fmap. by apply (E c Hin).
Qed.

Lemma find_kind_Some s name cs c' :
  c' ∈ cs -> Nucleus.kind_at s c' = Some name -> is_Some (Nucleus.find_kind s name cs).
Proof.
  intros Hin Hk. unfold Nucleus.find_kind.
  destruct (list_find _ cs) as [[i c]|] eqn:E; [by eexists|].
  apply list_find_None in E. rewrite Forall_forall in E. by destruct (E c' Hin).
Qed.

Section OnePerKind.
Context `{Ext : External}.

Lemma mountComponents_step_rejects e c s x cmp c' :
  entities s !! e = Some x -> comps s !! c = Some cmp ->
  c' ∈ components x -> Nucleus.kind_at s c' = Some (kind cmp) ->
  Nucleus.mountComponents_step e c s
  = Throw (JsError "An instance of this component is already mounted.") s.
Proof.
  intros Ex Ec Hin Hk. unfold Nucleus.mountComponents_step.
  unfold bind at 1. rewrite (get_entity_Some e s x Ex).
  unfold bind at 1. rewrite (get_comp_Some c s cmp Ec).
  unfold bind at 1. unfold gets at 1.
  by destruct (find_kind_Some s (kind cmp) (components x) c' Hin Hk) as [c0 ->].
Qed.

Lemma mountComponents_step_accepts e c s x cmp :
  entities s !! e = Some x -> comps s !! c = Some cmp ->
  Some (kind cmp) ∉ map (Nucleus.kind_at s) (components x) ->
  Nucleus.mountComponents_step e c s
  = call_absent (EvCollectionMountComponent e c)
      (with_entities (alter (set_components (components x ++ [c])) e (entities s)) s).
Proof.
  intros Ex Ec Hk. unfold Nucleus.mountComponents_step.
  unfold bind at 1. rewrite (get_entity_Some e s x Ex).
  unfold bind at 1. rewrite (get_comp_Some c s cmp Ec).
  unfold bind at 1. unfold gets at 1.
  destruct (Nucleus.find_kind s (kind cmp) (components x)) as [c0|] eqn:Ef.
  - exfalso. apply Hk. unfold Nucleus.find_kind in Ef.
    destruct (list_find _ (components x)) as [[i c1]|] eqn:E; [|discriminate].
    apply list_find_Some in E as (Hi & Hc1 & _).
    apply list_elem_of_fmap. exists c1. split; [done|]. by eapply list_elem_of_lookup_2.
  - unfold Nucleus.collection_mountComponent, bind, upd_entity, modify.
    assert (alter (fun y => set_components (components y ++ [c]) y) e (entities s)
            = alter (set_components (components x ++ [c])) e (entities s)) as ->; [|done].
    apply list_alter_ext; [|done]. intros y Hy. rewrite Ex in Hy. by injection Hy as <-.
Qed.

(** The methods of the absent collection and scene entity change no
    entity and no component. *)
Definition collection_keeps_heaps : Prop :=
  forall ev, preserves (keeps entities) (absent_method ev) /\
             preserves (keeps comps) (absent_method ev).

Lemma call_absent_keeps_heaps ev s s' :
  collection_keeps_heaps ->
  final (call_absent ev s) = Some s' -> entities s' = entities s /\ comps s' = comps s.
Proof.
  intros Hk H. destruct (Hk ev) as [He Hc].
  unfold call_absent, bind, log, modify in H.
  split.
  - by rewrite (He _ _ H).
  - by rewrite (Hc _ _ H).
Qed.

Lemma kinds_of_heaps e s s' :
  entities s' = entities s -> comps s' = comps s -> kinds_of e s' = kinds_of e s.
Proof.
  intros He Hc. unfold kinds_of, components_of, Nucleus.kind_at. by rewrite He, Hc.
Qed.

Lemma mountComponents_step_inv e c s s' :
  collection_keeps_heaps ->
  final (Nucleus.mountComponents_step e c s) = Some s' ->
  one_per_kind e s -> one_per_kind e s'.
Proof.
  intros Hk H Hinv.
  destruct (entities s !! e) as [x|] eqn:Ex.
  2: { unfold Nucleus.mountComponents_step, bind, get_entity in H. rewrite Ex in H.
       simpl in H. by injection H as <-. }
  destruct (comps s !! c) as [cmp|] eqn:Ec.
  2: { unfold Nucleus.mountComponents_step, bind in H.
       rewrite (get_entity_Some e s x Ex) in H. unfold get_comp in H. rewrite Ec in H.
       simpl in H. by injection H as <-. }
  destruct (decide (Some (kind cmp) ∈ map (Nucleus.kind_at s) (components x))) as [Hin|Hin].
  - apply list_elem_of_fmap in Hin as (c' & Hk' & Hc').
    rewrite (mountComponents_step_rejects e c s x cmp c' Ex Ec Hc' (eq_sym Hk')) in H.
    simpl in H. by injection H as <-.
  - rewrite (mountComponents_step_accepts e c s x cmp Ex Ec Hin) in H.
    apply (call_absent_keeps_heaps _ _ _ Hk) in H as [He Hc].
    unfold one_per_kind. rewrite (kinds_of_heaps e _ s' He Hc).
    unfold one_per_kind, kinds_of in *.
    rewrite (components_of_lookup e s x Ex) in Hinv.
    unfold components_of. simpl. rewrite list_lookup_alter_eq, Ex. simpl.
    assert (Nucleus.kind_at
              (with_entities (alter (set_components (components x ++ [c])) e (entities s)) s)
            = Nucleus.kind_at s) as -> by done.
    rewrite map_app. apply NoDup_app. split; [done|]. split.
    + intros k Hk1 Hk2. simpl in Hk2. apply list_elem_of_singleton in Hk2. subst k.
      unfold Nucleus.kind_at in Hk1 at 1. rewrite Ec in Hk1. simpl in Hk1. done.
    + simpl. apply NoDup_singleton.
Qed.

Lemma mountComponents_loop_inv e cs s s' :
  collection_keeps_heaps ->
  final (Js.forEach_list cs (Nucleus.mountComponents_step e) s) = Some s' ->
  one_per_kind e s -> one_per_kind e s'.
Proof.
  intros Hk. revert s. induction cs as [|c cs IH]; intros s H Hinv; simpl in H.
  - by injection H as <-.
  - apply final_bind in H as [[err H]|(u & s1 & H1 & H2)].
    + apply (mountComponents_step_inv e c s s' Hk); [by rewrite H | done].
    + apply (IH s1 H2). apply (mountComponents_step_inv e c s s1 Hk); [by rewrite H1 | done].
Qed.

Lemma mountComponents_loop_single e c s :
  Js.forEach_list [c] (Nucleus.mountComponents_step e) s
  = bind (Nucleus.mountComponents_step e c) (fun _ => ret tt) s.
Proof. reflexivity. Qed.

Lemma addComponents_new e c s x :
  entities s !! e = Some x -> c ∉ components x ->
  Bframe.addComponents e [c] s
  = bind (when (isMounted x) (Bframe._mountComponent e c)) (fun _ => ret e)
      (with_entities (alter (set_components (components x ++ [c])) e (entities s)) s).
Proof.
  intros Ex Hc.
  set (s1 := with_entities (alter (set_components (components x ++ [c])) e (entities s)) s).
  assert (Bframe.addComponents_step e c s
          = when (isMounted x) (Bframe._mountComponent e c) s1) as Hstep.
  { unfold Bframe.addComponents_step.
    unfold bind at 1. rewrite (get_entity_Some e s x Ex).
    rewrite decide_True by (by apply indexOf_notin).
    unfold bind at 1. unfold upd_entity at 1, modify at 1.
    assert (alter (fun y => set_components (components y ++ [c]) y) e (entities s)
            = alter (set_components (components x ++ [c])) e (entities s)) as ->.
    { apply list_alter_ext; [|done]. intros y Hy. rewrite Ex in Hy. by injection Hy as <-. }
    fold s1.
    assert (entities s1 !! e = Some (set_components (components x ++ [c]) x)) as E1.
    { subst s1. simpl. by rewrite list_lookup_alter_eq, Ex. }
    unfold bind at 1. by rewrite (get_entity_Some e s1 _ E1). }
  unfold Bframe.addComponents.
  unfold bind at 1. rewrite (get_entity_Some e s x Ex). simpl.
  unfold bind. rewrite Hstep.
  by destruct (when (isMounted x) (Bframe._mountComponent e c) s1).
Qed.

(** C3 (amended): nucleus attaches at most one component per kind.
    [mountComponents] (and [mountComponent]) throws for a component
    whose kind is attached already and leaves the state as it is;
    otherwise it appends the component and hands it to the collection.
    Whether a batch returns or throws (the components before the
    rejected one stay attached), no kind is attached twice afterwards
    if none was before, provided the absent collection changes no
    entity and no component.  bframe's [addComponents] skips only an
    instance that is attached already: an instance that is not attached
    is appended, whatever its kind, before anything else happens. *)
Theorem C3_one_component_per_kind :
  forall (s : State) (e : nat) (x : Entity),
    entities s !! e = Some x ->
    (forall c cmp c',
        comps s !! c = Some cmp -> c' ∈ components x ->
        Nucleus.kind_at s c' = Some (kind cmp) ->
        Nucleus.mountComponents e [c] s
        = Throw (JsError "An instance of this component is already mounted.") s /\
        Nucleus.mountComponent e c s
        = Throw (JsError "An instance of this component is already mounted.") s) /\
    (forall c cmp,
        comps s !! c = Some cmp ->
        Some (kind cmp) ∉ map (Nucleus.kind_at s) (components x) ->
        Nucleus.mountComponents e [c] s
        = bind (call_absent (EvCollectionMountComponent e c)) (fun _ => ret tt)
            (with_entities (alter (set_components (components x ++ [c])) e (entities s)) s)) /\
    (collection_keeps_heaps ->
     forall cs s',
       final (Nucleus.mountComponents e cs s) = Some s' ->
       one_per_kind e s -> one_per_kind e s') /\
    (forall c, c ∈ components x -> Bframe.addComponents e [c] s = Ok e s) /\
    (forall c, c ∉ components x ->
               Bframe.addComponents e [c] s
               = bind (when (isMounted x) (Bframe._mountComponent e c)) (fun _ => ret e)
                   (with_entities
                      (alter (set_components (components x ++ [c])) e (entities s)) s)).
Proof.
  intros s e x Ex. split_and!.
  - intros c cmp c' Ec Hin Hk.
    assert (Nucleus.mountComponents e [c] s
            = Throw (JsError "An instance of this component is already mounted.") s) as E.
    { unfold Nucleus.mountComponents. unfold bind at 1. rewrite (get_entity_Some e s x Ex).
      rewrite mountComponents_loop_single. unfold bind.
      by rewrite (mountComponents_step_rejects e c s x cmp c' Ex Ec Hin Hk). }
    split; [done|]. unfold Nucleus.mountComponent, bind. by rewrite E.
  - intros c cmp Ec Hk. unfold Nucleus.mountComponents.
    unfold bind at 1. rewrite (get_entity_Some e s x Ex).
    rewrite mountComponents_loop_single. unfold bind at 1.
    by rewrite (mountComponents_step_accepts e c s x cmp Ex Ec Hk).
  - intros Hk cs s' H Hinv. unfold Nucleus.mountComponents in H.
    unfold bind at 1 in H. rewrite (get_entity_Some e s x Ex) in H.
    by apply (mountComponents_loop_inv e cs s s' Hk).
  - intros c Hc. apply (addComponents_attached e [c] s x Ex). by apply Forall_singleton.
  - intros c Hc. by apply addComponents_new.
Qed.

End OnePerKind.

Section QuietKinds.
#[local] Existing Instance quiet.

(** [disabled_component_state] with two more components that are not
    attached: a second "Spin" (3) and a "Jump" (4). *)
Definition spare_components_state : State :=
  Eval vm_compute in
    exec (alloc_component (mkComponent "Spin" false true None) ;;
          alloc_component (mkComponent "Jump" false true None)) disabled_component_state.

End QuietKinds.

(** C3, as stated, fails on the bframe entity: an instance of a kind
    that is attached already is attached as well, the call returns. *)
Lemma C3_bframe_attaches_two_of_a_kind :
  components (entity_at one_component_state 0) = [1] /\
  Nucleus.kind_at one_component_state 1 = Some "Spin" /\
  Nucleus.kind_at one_component_state 0 = Some "Spin" /\
  exists s',
    Bframe.addComponents (Ext := quiet) 0 [0] one_component_state = Ok 0 s' /\
    components (entity_at s' 0) = [1; 0] /\
    comps s' = comps one_component_state.
Proof.
  split; [vm_compute; reflexivity|]. split; [vm_compute; reflexivity|].
  split; [vm_compute; reflexivity|].
  exists (exec (Bframe.addComponents (Ext := quiet) 0 [0]) one_component_state).
  repeat split; vm_compute; reflexivity.
Qed.

Lemma quiet_keeps_heaps : collection_keeps_heaps (Ext := quiet).
Proof. intros ev. split; intros s s' [= <-]; reflexivity. Qed.

Lemma C3_one_component_per_kind_witness :
  components (entity_at spare_components_state 0) = [0; 1; 2] /\
  one_per_kind 0 spare_components_state /\
  Nucleus.mountComponents (Ext := quiet) 0 [3] spare_components_state
  = Throw (JsError "An instance of this component is already mounted.")
      spare_components_state /\
  (exists s',
      final (Nucleus.mountComponents (Ext := quiet) 0 [4; 3] spare_components_state) = Some s' /\
      components (entity_at s' 0) = [0; 1; 2; 4] /\
      one_per_kind 0 s').
Proof.
  assert (entities spare_components_state !! 0 = Some (entity_at spare_components_state 0))
    as E by (apply entity_at_lookup; vm_compute; lia).
  assert (one_per_kind 0 spare_components_state) as Hinv
    by (apply (bool_decide_unpack _); vm_compute; reflexivity).
  destruct (C3_one_component_per_kind (Ext := quiet) spare_components_state 0 _ E)
    as (Hrej & _ & Hkeep & _).
  split; [vm_compute; reflexivity|]. split; [exact Hinv|]. split.
  - apply (Hrej 3 (mkComponent "Spin" false true None) 0).
    + vm_compute. reflexivity.
    + apply (bool_decide_unpack _). vm_compute. reflexivity.
    + vm_compute. reflexivity.
  - exists (exec (Nucleus.mountComponents (Ext := quiet) 0 [4; 3]) spare_components_state).
    assert (final (Nucleus.mountComponents (Ext := quiet) 0 [4; 3] spare_components_state)
            = Some (exec (Nucleus.mountComponents (Ext := quiet) 0 [4; 3])
                      spare_components_state)) as Hf by (vm_compute; reflexivity).
    split; [exact Hf|]. split; [vm_compute; reflexivity|].
    exact (Hkeep quiet_keeps_heaps [4; 3] _ Hf Hinv).
Defined.

(** * Parents and children (C1) *)

(** The entity has the parent link and the children list it had. *)
Definition same_tree (x y : Entity) : Prop :=
  parent y = parent x /\ children y = children x.

#[global] Instance same_tree_refl : Reflexive same_tree.
Proof. by intros x. Qed.
#[global] Instance same_tree_trans : Transitive same_tree.
Proof. intros x y z [H1 H2] [H3 H4]. split; congruence. Qed.

(** The entity has the parent link it had; its children are children it
    had, in the order they were in. *)
Definition shrinks (x y : Entity) : Prop :=
  parent y = parent x /\ children y `sublist_of` children x.

#[global] Instance shrinks_refl : Reflexive shrinks.
Proof. intros x. by split. Qed.
#[global] Instance shrinks_trans : Transitive shrinks.
Proof.
  intros x y z [H1 H2] [H3 H4]. split; [congruence|]. by trans (children y).
Qed.


Section Tree.
Context `{Ext : External}.
Hypothesis ext_tree : external_preserves (entity_rel same_tree).












End Tree.

Section QuietFamilies.
#[local] Existing Instance quiet.





End QuietFamilies.


